(** * contensis-forms: the form state engine

    A shallow embedding of the React package's state layer:
    - [models/api.ts]   the form schema ([Field], [Group], [FormContentType]),
    - [state/fields.ts] field derivation (editor type, empty and default
      value, options, local ISO date strings),
    - the form state reducer ([onSetForm], [onSetValue], [onSubmit],
      [onGotoPage], ...) with its draft persistence and the store actions
      built on it ([createActions]).

    JavaScript objects used as dictionaries are finite maps from property
    name to value ([gmap string JsValue]): only own properties are
    modelled, the prototype chain is not.  [Nullable<T>] and optional
    properties are [option T]; [null] and [undefined] are told apart only
    where a value is of type [any]/[unknown] ([JsValue]). *)

From stdpp Require Import gmap strings list fin_maps pretty.
From Stdlib Require Import ZArith Lia Ascii.

Local Open Scope Z_scope.
Set Warnings "-register-all,-clear-no-such-hyp".

(** ** JavaScript values *)

(** Values of type [any]/[unknown]: field values, defaults, the result of
    [JSON.parse], validation results.  The reducer never computes with
    numbers, so integers stand for JS numbers. *)
Inductive JsValue :=
  | JUndefined
  | JNull
  | JBool (b : bool)
  | JNum (n : Z)
  | JStr (s : string)
  | JArr (l : list JsValue)
  | JObj (m : gmap string JsValue).

(** [typeof v !== 'undefined'] *)
Definition is_defined (v : JsValue) : bool :=
  match v with JUndefined => false | _ => true end.

(** [!!v] *)
Definition truthy (v : JsValue) : bool :=
  match v with
  | JUndefined | JNull => false
  | JBool b => b
  | JNum n => negb (n =? 0)
  | JStr s => negb (String.eqb s "")
  | JArr _ | JObj _ => true
  end.

(** [!!s] for [s : Nullable<string>]: a string is truthy unless empty. *)
Definition truthy_str (s : option string) : bool :=
  match s with
  | Some s => negb (String.eqb s "")
  | None => false
  end.

(** [o[key]] on a dictionary: a missing property reads as [undefined]. *)
Definition prop (o : gmap string JsValue) (key : string) : JsValue :=
  default JUndefined (o !! key).

(** [String.prototype.slice(start)]: a negative [start] counts from the
    end, and the start is clamped to the string. *)
Definition slice (start : Z) (s : string) : string :=
  let len := Z.of_nat (String.length s) in
  let from := if start <? 0 then Z.max (len + start) 0 else Z.min start len in
  String.substring (Z.to_nat from) (Z.to_nat (len - from)) s.

(** The array indices of an array or string of length [len], as property
    names: ["0"], ["1"], ... *)
Definition array_index (key : string) (len : nat) : option nat :=
  List.find (fun i : nat => bool_decide (pretty i = key)) (seq 0 len).

(** [v?.[key]] on a value of type [any], for its own properties; what a
    value inherits from its prototype is not modelled. *)
Definition get (v : JsValue) (key : string) : JsValue :=
  match v with
  | JObj m => prop m key
  | JArr l =>
      if bool_decide (key = "length") then JNum (Z.of_nat (length l))
      else match array_index key (length l) with
           | Some i => default JUndefined (l !! i)
           | None => JUndefined
           end
  | JStr s =>
      if bool_decide (key = "length") then JNum (Z.of_nat (String.length s))
      else match array_index key (String.length s) with
           | Some i => JStr (String.substring i 1 s)
           | None => JUndefined
           end
  | _ => JUndefined
  end.

(** ** models/api.ts *)

Inductive FieldDataType :=
  | DT_boolean | DT_dateTime | DT_decimal | DT_integer | DT_string
  | DT_stringArray.

Inductive FieldDataFormat :=
  | DF_email | DF_phone | DF_reference | DF_time | DF_url.

Inductive FieldEditorId :=
  | EI_datetime | EI_date | EI_decimal | EI_integer | EI_list_dropdown
  | EI_list | EI_multiline | EI_text.

Record LabeledValue := { lv_value : string; lv_label : string }.

Record AllowedValues := {
  values : option (list string);
  labeledValues : option (list LabeledValue)
}.

(** [FieldValidation] and [FieldValidationWithValue<T>] *)
Record FieldValidation := { message : option string }.
Record FieldValidationWithValue (T : Type) := {
  vmessage : option string;
  vvalue : T
}.
Arguments vmessage {T} _.
Arguments vvalue {T} _.

Record FieldValidations := {
  required : option FieldValidation;
  min : option (FieldValidationWithValue Z);
  max : option (FieldValidationWithValue Z);
  minLength : option (FieldValidationWithValue Z);
  maxLength : option (FieldValidationWithValue Z);
  minCount : option (FieldValidationWithValue Z);
  maxCount : option (FieldValidationWithValue Z);
  regex : option (FieldValidation * string);
  allowedValue : option (FieldValidationWithValue JsValue);
  allowedValues : option (FieldValidation * AllowedValues);
  pastDateTime : option FieldValidation;
  decimalPlaces : option (FieldValidationWithValue Z)
}.

Inductive FieldLabelPosition := LP_top | LP_leftAligned.

Record FieldEditorProperties := {
  autoFill : option string;
  rows : option Z;
  labelPosition : option FieldLabelPosition;
  cssClass : option string;
  hidden : option bool;
  readOnly : option bool;
  placeholderText : option string
}.

Record FieldEditor := {
  editor_id : option FieldEditorId;
  instructions : option string;
  label : option string;
  properties : option FieldEditorProperties
}.

(** [default?: unknown]: an absent default is [JUndefined]. *)
Record Field := {
  field_id : string;
  field_name : string;
  dataType : FieldDataType;
  dataFormat : option FieldDataFormat;
  field_description : option string;
  default_ : JsValue;
  groupId : string;
  validations : option FieldValidations;
  editor : option FieldEditor
}.

Record Group := {
  group_id : string;
  group_name : string;
  group_description : option JsValue
}.

Record CaptchaSettings := { enabled : bool; siteKey : option string }.

Record FormProperties := {
  captcha : CaptchaSettings;
  localizations : option (gmap string JsValue);
  confirmationRules : list JsValue;
  autoSaveProgress : bool;
  mode : option string
}.

(** [FormContentType] (imported by the reducer as [ContentType]) *)
Record FormContentType := {
  form_id : string;
  form_name : string;
  form_description : string;
  fields : list Field;
  groups : option (list Group);
  form_properties : option FormProperties;
  form_language : string;
  versionNo : option string
}.

(** ** state/fields.ts *)

(** Modelled from the spec: the type [FieldEditorType] is declared in the
    models package outside these files; its members are the editor types
    the three tables below and [getFieldEditorType] mention. *)
Inductive FieldEditorType :=
  | ET_checkbox | ET_date | ET_datetime | ET_decimal | ET_integer | ET_text
  | ET_radio | ET_email | ET_tel | ET_reference | ET_time | ET_url
  | ET_select | ET_multiline | ET_multiselect.

Global Instance FieldEditorType_eq_dec : EqDecision FieldEditorType.
Proof. solve_decision. Defined.
Global Instance FieldDataType_eq_dec : EqDecision FieldDataType.
Proof. solve_decision. Defined.
Global Instance FieldDataFormat_eq_dec : EqDecision FieldDataFormat.
Proof. solve_decision. Defined.

Definition DEFAULT_DATA_TYPE_EDITOR_TYPES (t : FieldDataType) : FieldEditorType :=
  match t with
  | DT_boolean => ET_checkbox
  | DT_dateTime => ET_date
  | DT_decimal => ET_decimal
  | DT_integer => ET_integer
  | DT_string => ET_text
  | DT_stringArray => ET_radio
  end.

Definition DEFAULT_DATA_FORMAT_EDITOR_TYPES (f : FieldDataFormat) : FieldEditorType :=
  match f with
  | DF_email => ET_email
  | DF_phone => ET_tel
  | DF_reference => ET_reference
  | DF_time => ET_time
  | DF_url => ET_url
  end.

Definition DEFAULT_EDITOR_ID_EDITOR_TYPES (i : FieldEditorId) : FieldEditorType :=
  match i with
  | EI_date => ET_date
  | EI_datetime => ET_datetime
  | EI_decimal => ET_decimal
  | EI_integer => ET_integer
  | EI_list => ET_radio
  | EI_list_dropdown => ET_select
  | EI_multiline => ET_multiline
  | EI_text => ET_text
  end.

(** [field.validations?.allowedValues] *)
Definition field_allowedValues (field : Field) : option AllowedValues :=
  match validations field with
  | Some v => snd <$> allowedValues v
  | None => None
  end.

(** [field.validations?.allowedValues?.values] *)
Definition field_values (field : Field) : option (list string) :=
  match field_allowedValues field with
  | Some av => values av
  | None => None
  end.

(** [field.validations?.allowedValues?.labeledValues] *)
Definition field_labeledValues (field : Field) : option (list LabeledValue) :=
  match field_allowedValues field with
  | Some av => labeledValues av
  | None => None
  end.

(** [field.editor?.id] *)
Definition field_editor_id (field : Field) : option FieldEditorId :=
  match editor field with
  | Some e => editor_id e
  | None => None
  end.

(** [field.editor?.properties?.placeholderText] *)
Definition field_placeholderText (field : Field) : option string :=
  match editor field with
  | Some e =>
      match properties e with
      | Some p => placeholderText p
      | None => None
      end
  | None => None
  end.

(** An editor type is a non-empty string, so [!editorType] only tests
    whether one has been found yet. *)
Definition getFieldEditorType (field : Field) : FieldEditorType :=
  let editorType : option FieldEditorType :=
    match field_editor_id field with
    | Some i => Some (DEFAULT_EDITOR_ID_EDITOR_TYPES i)
    | None => None
    end in
  let editorType :=
    match editorType, dataFormat field with
    | None, Some df => Some (DEFAULT_DATA_FORMAT_EDITOR_TYPES df)
    | _, _ => editorType
    end in
  let editorType :=
    if negb (bool_decide (is_Some editorType))
       && (bool_decide (is_Some (field_values field))
           || bool_decide (is_Some (field_labeledValues field)))
    then Some (if bool_decide (dataType field = DT_stringArray)
               then ET_multiselect else ET_radio)
    else editorType in
  let editorType :=
    match editorType with
    | Some e => e
    | None => DEFAULT_DATA_TYPE_EDITOR_TYPES (dataType field)
    end in
  editorType.

Definition EMPTY_FIELD_VALUES (t : FieldDataType) : JsValue :=
  match t with
  | DT_boolean => JBool false
  | DT_dateTime => JNull
  | DT_decimal => JNull
  | DT_integer => JNull
  | DT_string => JStr ""
  | DT_stringArray => JNull
  end.

Definition getEmptyFieldValue (field : Field) : JsValue :=
  EMPTY_FIELD_VALUES (dataType field).

(** Modelled from the spec: [FormFieldOption] is declared in the models
    package outside these files; its properties are the ones [getOptions]
    writes. *)
Record FormFieldOption := {
  opt_key : string;
  opt_htmlId : string;
  opt_value : string;
  opt_label : string
}.

(** [a || b] on optional strings *)
Definition str_or (a : option string) (b : string) : string :=
  match a with
  | Some s => if String.eqb s "" then b else s
  | None => b
  end.

(** [localisations.pleaseSelect] comes from the localisation tables, which
    are outside these files: it is an argument. *)
Definition getOptions (pleaseSelect : string) (field : Field) (htmlId : string)
    : option (list FormFieldOption) :=
  let pairs : option (list LabeledValue) :=
    match field_labeledValues field with
    | Some lvs => Some (map (fun value => value) lvs)
    | None =>
        match field_values field with
        | Some vs =>
            Some (map (fun value => {| lv_value := value; lv_label := value |}) vs)
        | None => None
        end
    end in
  let options : option (list FormFieldOption) :=
    match pairs with
    | Some pairs =>
        Some (imap (fun (index : nat) (pair : LabeledValue) =>
                      {| opt_key := pretty index;
                         opt_htmlId := htmlId +:+ "-option-" +:+ pretty index;
                         opt_value := lv_value pair;
                         opt_label := lv_label pair |}) pairs)
    | None => None
    end in
  if bool_decide (getFieldEditorType field = ET_select) then
    let emptyOption : option FormFieldOption :=
      match options with
      | Some options => List.find (fun o => String.eqb (opt_value o) "") options
      | None => None
      end in
    match emptyOption with
    | Some _ => options
    | None =>
        Some ({| opt_key := "";
                 opt_htmlId := htmlId +:+ "-option--1";
                 opt_value := "";
                 opt_label :=
                   str_or (field_placeholderText field)
                          pleaseSelect |}
              :: default ([] : list FormFieldOption) options)
    end
  else options.

(** A [Date], read through its local-time getters. *)
Record Date := {
  getFullYear : Z;
  getMonth : Z;
  getDate : Z;
  getHours : Z;
  getMinutes : Z
}.

Fixpoint repeat_string (n : nat) (s : string) : string :=
  match n with
  | O => ""
  | S n => s +:+ repeat_string n s
  end.

(** [n] is an integer that [`${n}`] writes in plain decimal digits: every
    safe integer, and so every reading of a [Date]. *)
Definition pad (n : Z) (len : nat) : string :=
  let padding := repeat_string len "0" in
  slice (-1 * Z.of_nat len) (padding +:+ pretty n).

Definition toLocalIsoDate (dt : Date) : string :=
  pretty (getFullYear dt) +:+ "-" +:+ pad (getMonth dt + 1) 2 +:+ "-"
  +:+ pad (getDate dt) 2 +:+ "T00:00".

Definition toLocalIsoDateTime (dt : Date) : string :=
  pretty (getFullYear dt) +:+ "-" +:+ pad (getMonth dt + 1) 2 +:+ "-"
  +:+ pad (getDate dt) 2 +:+ "T" +:+ pad (getHours dt) 2 +:+ ":"
  +:+ pad (getMinutes dt) 2.

Definition toLocalIsoTime (dt : Date) : string :=
  pad (getHours dt) 2 +:+ ":" +:+ pad (getMinutes dt) 2.

(** [new Date()] is the argument [now]. *)
Definition getNowDate (now : Date) : string := toLocalIsoDate now.
Definition getNowDateTime (now : Date) : string := toLocalIsoDateTime now.
Definition getNowTime (now : Date) : string := toLocalIsoTime now.

(** [v === 'now()'] *)
Definition is_now (v : JsValue) : bool :=
  match v with
  | JStr s => String.eqb s "now()"
  | _ => false
  end.

Definition getDefaultValue (now : Date) (field : Field) : JsValue :=
  let defaultValue :=
    if is_defined (default_ field) then default_ field
    else getEmptyFieldValue field in
  if bool_decide (dataType field = DT_dateTime) && is_now defaultValue then
    if bool_decide (getFieldEditorType field = ET_datetime)
    then JStr (getNowDateTime now)
    else JStr (getNowDate now)
  else if bool_decide (dataType field = DT_string)
          && bool_decide (dataFormat field = Some DF_time)
          && is_now defaultValue then
    JStr (getNowTime now)
  else defaultValue.

(** ** state/shared.ts: pagination helpers *)

(** Modelled from the spec: [getPageIndex] lives in [./shared], outside
    these files.  "first matching index, or -1 if form has no groups / not
    found". *)
Definition getPageIndex (form : option FormContentType) (pageId : option string) : Z :=
  match form, pageId with
  | Some form, Some pageId =>
      match groups form with
      | Some gs =>
          match list_find (fun g => group_id g = pageId) gs with
          | Some (i, _) => Z.of_nat i
          | None => -1
          end
      | None => -1
      end
  | _, _ => -1
  end.

(** Modelled from the spec: [getPageIdAt] lives in [./shared].  "group id
    at index, or absent if out of range or no groups". *)
Definition getPageIdAt (form : option FormContentType) (index : Z) : option string :=
  match form with
  | Some form =>
      match groups form with
      | Some gs =>
          if index <? 0 then None else group_id <$> gs !! Z.to_nat index
      | None => None
      end
  | None => None
  end.

(** Modelled from the spec: [getNextPage] lives in [./shared].  "adjacent
    group id, or absent at boundaries": the group after the current page's
    index. *)
Definition getNextPage (form : option FormContentType) (pageId : option string) : option string :=
  getPageIdAt form (getPageIndex form pageId + 1).

(** Modelled from the spec: [getPreviousPage] lives in [./shared].
    "adjacent group id, or absent at boundaries": the group before the
    current page's index. *)
Definition getPreviousPage (form : option FormContentType) (pageId : option string) : option string :=
  getPageIdAt form (getPageIndex form pageId - 1).

(** The number of groups of a form; none when the form or its group list
    is absent. *)
Definition groupCount (form : option FormContentType) : Z :=
  match form with
  | Some form =>
      match groups form with
      | Some gs => Z.of_nat (length gs)
      | None => 0
      end
  | None => 0
  end.

(** Modelled from the spec: [getIsLastPage] lives in [./shared].  "true
    when pageId is the final group, or when the form has no groups at all
    (single implicit page)": the page's index is the last one. *)
Definition getIsLastPage (form : option FormContentType) (pageId : option string) : bool :=
  (groupCount form =? 0) || (getPageIndex form pageId =? groupCount form - 1).

(** Modelled from the spec: [reduceFields] lives in [./shared].  It folds
    the form's fields into a dictionary from field id to [fn field]
    ("computes defaultValue and emptyValue via Field Derivation"; the key
    set is "all field ids of the loaded form"). *)
Definition reduceFields (form : FormContentType) (fn : Field → JsValue) : gmap string JsValue :=
  foldl (fun prev field => <[field_id field := fn field]> prev) ∅ (fields form).

(** ** The form state *)

(** Modelled from the spec: the type [FormState] is declared in the models
    package outside these files; its properties are the ones [onSetForm]
    writes.  The dictionaries are empty before a form is loaded. *)
Record FormState := {
  htmlId : string;
  form : option FormContentType;
  language : string;
  currentPageId : option string;
  value : gmap string JsValue;
  defaultValue : gmap string JsValue;
  emptyValue : gmap string JsValue;
  inputValue : gmap string JsValue;
  errors : gmap string JsValue;
  showErrors : bool;
  focussed : option string;
  loading : bool;
  loadError : option JsValue;
  defaultPageTitle : string
}.

(** [{ ...state, p: v }] for the properties the reducer overwrites. *)
Definition with_currentPageId (v : option string) (s : FormState) : FormState :=
  {| htmlId := htmlId s; form := form s; language := language s;
     currentPageId := v; value := value s; defaultValue := defaultValue s;
     emptyValue := emptyValue s; inputValue := inputValue s;
     errors := errors s; showErrors := showErrors s; focussed := focussed s;
     loading := loading s; loadError := loadError s;
     defaultPageTitle := defaultPageTitle s |}.

Definition with_value (v : gmap string JsValue) (s : FormState) : FormState :=
  {| htmlId := htmlId s; form := form s; language := language s;
     currentPageId := currentPageId s; value := v;
     defaultValue := defaultValue s; emptyValue := emptyValue s;
     inputValue := inputValue s; errors := errors s;
     showErrors := showErrors s; focussed := focussed s;
     loading := loading s; loadError := loadError s;
     defaultPageTitle := defaultPageTitle s |}.

Definition with_inputValue (v : gmap string JsValue) (s : FormState) : FormState :=
  {| htmlId := htmlId s; form := form s; language := language s;
     currentPageId := currentPageId s; value := value s;
     defaultValue := defaultValue s; emptyValue := emptyValue s;
     inputValue := v; errors := errors s; showErrors := showErrors s;
     focussed := focussed s; loading := loading s; loadError := loadError s;
     defaultPageTitle := defaultPageTitle s |}.

Definition with_errors (v : gmap string JsValue) (s : FormState) : FormState :=
  {| htmlId := htmlId s; form := form s; language := language s;
     currentPageId := currentPageId s; value := value s;
     defaultValue := defaultValue s; emptyValue := emptyValue s;
     inputValue := inputValue s; errors := v; showErrors := showErrors s;
     focussed := focussed s; loading := loading s; loadError := loadError s;
     defaultPageTitle := defaultPageTitle s |}.

Definition with_showErrors (v : bool) (s : FormState) : FormState :=
  {| htmlId := htmlId s; form := form s; language := language s;
     currentPageId := currentPageId s; value := value s;
     defaultValue := defaultValue s; emptyValue := emptyValue s;
     inputValue := inputValue s; errors := errors s; showErrors := v;
     focussed := focussed s; loading := loading s; loadError := loadError s;
     defaultPageTitle := defaultPageTitle s |}.

Definition with_focussed (v : option string) (s : FormState) : FormState :=
  {| htmlId := htmlId s; form := form s; language := language s;
     currentPageId := currentPageId s; value := value s;
     defaultValue := defaultValue s; emptyValue := emptyValue s;
     inputValue := inputValue s; errors := errors s;
     showErrors := showErrors s; focussed := v; loading := loading s;
     loadError := loadError s; defaultPageTitle := defaultPageTitle s |}.

Definition with_loading (v : bool) (s : FormState) : FormState :=
  {| htmlId := htmlId s; form := form s; language := language s;
     currentPageId := currentPageId s; value := value s;
     defaultValue := defaultValue s; emptyValue := emptyValue s;
     inputValue := inputValue s; errors := errors s;
     showErrors := showErrors s; focussed := focussed s; loading := v;
     loadError := loadError s; defaultPageTitle := defaultPageTitle s |}.

Definition with_loadError (v : option JsValue) (s : FormState) : FormState :=
  {| htmlId := htmlId s; form := form s; language := language s;
     currentPageId := currentPageId s; value := value s;
     defaultValue := defaultValue s; emptyValue := emptyValue s;
     inputValue := inputValue s; errors := errors s;
     showErrors := showErrors s; focussed := focussed s;
     loading := loading s; loadError := v;
     defaultPageTitle := defaultPageTitle s |}.

(** What an updater hands back to the store: the very object it was given
    ([return state], which [Object.is] recognises) or a new one. *)
Inductive Next :=
  | Same
  | Fresh (s : FormState).

Definition next (state : FormState) (n : Next) : FormState :=
  match n with
  | Same => state
  | Fresh s => s
  end.

(** ** Browser history and local storage *)

Inductive HistoryOp :=
  | pushState (pageId : string)
  | replaceState (pageId : string)
  | back.

Inductive HistoryAction := push | replace.

(** The calls made on [history], in order. *)
Definition addToHistory (pageId : option string) (action : HistoryAction) : list HistoryOp :=
  match pageId with
  | Some pageId =>
      match action with
      | push => [pushState pageId]
      | replace => [replaceState pageId]
      end
  | None => []
  end.

Definition page_key (formId : string) : string :=
  "contensis-form-" +:+ formId +:+ "-page".

Definition value_key (formId : string) : string :=
  "contensis-form-" +:+ formId +:+ "-value".

Record Progress := {
  page : string;
  pvalue : JsValue
}.

(** [state.form?.fields.find(f => f.id === fieldId)] *)
Definition find_field (form : option FormContentType) (fieldId : string) : option Field :=
  match form with
  | Some form => List.find (fun f => String.eqb (field_id f) fieldId) (fields form)
  | None => None
  end.

(** [Object.keys(o)] *)
Definition keys (o : gmap string JsValue) : list string :=
  (map_to_list o).*1.

Definition currentPageHasErrors (state : FormState) : bool :=
  let currentPageFieldIds :=
    map field_id
      (filter (fun f => Some (groupId f) = currentPageId state)
         (from_option fields [] (form state))) in
  existsb (fun id => truthy (prop (errors state) id)) currentPageFieldIds.

(** ** The reducer *)

Section Reducer.

(** [validate] lives in [./validation], outside these files, and
    [JSON.parse] / [JSON.stringify] belong to the platform: the reducer is
    read for any of them.  [JSON_parse] answers [None] where [JSON.parse]
    throws. *)
Variable validate : JsValue → Field → string → JsValue.
Variable JSON_parse : string → option JsValue.
Variable JSON_stringify : JsValue → string.

Definition getDefaultFormValue (now : Date) (form : FormContentType) (language : string)
    : gmap string JsValue :=
  reduceFields form (fun field => getDefaultValue now field).

Definition getEmptyFormValue (form : FormContentType) : gmap string JsValue :=
  reduceFields form (fun field => getEmptyFieldValue field).

(** [localStorage] is the dictionary [ls]; [getItem] of a missing key is
    [null]. *)
Definition loadProgress (ls : gmap string string) (form : FormContentType) : option Progress :=
  let page := ls !! page_key (form_id form) in
  let jsonValue := ls !! value_key (form_id form) in
  if truthy_str page && truthy_str jsonValue then
    match page, jsonValue with
    | Some page, Some jsonValue =>
        match JSON_parse jsonValue with
        | Some value => Some {| page := page; pvalue := value |}
        | None => None
        end
    | _, _ => None
    end
  else None.

Definition saveProgress (state : FormState) (ls : gmap string string) : gmap string string :=
  match form state with
  | Some f =>
      if negb (String.eqb (form_id f) "") then
        <[value_key (form_id f) := JSON_stringify (JObj (value state))]>
          (<[page_key (form_id f) := str_or (currentPageId state) ""]> ls)
      else ls
  | None => ls
  end.

Definition resetProgress (state : FormState) (ls : gmap string string) : gmap string string :=
  match form state with
  | Some f =>
      if negb (String.eqb (form_id f) "") then
        delete (value_key (form_id f)) (delete (page_key (form_id f)) ls)
      else ls
  | None => ls
  end.

(** The draft's values laid over the default ones (the [reduce] over
    [Object.keys(value)] of [onSetForm]). *)
Definition mergeProgress (progress : Progress) (value : gmap string JsValue)
    : gmap string JsValue :=
  foldl (fun prev key =>
           if is_defined (get (pvalue progress) key) && is_defined (prop value key)
           then <[key := get (pvalue progress) key]> prev
           else prev)
        value (keys value).

(** [now] is the wall clock read while the default values are computed. *)
Definition onSetForm (ls : gmap string string) (now : Date)
    (state : FormState) (form : FormContentType) : FormState :=
  let firstPageId := getPageIdAt (Some form) 0 in
  let currentPageId := firstPageId in
  let defaultValue := getDefaultFormValue now form (language state) in
  let emptyValue := getEmptyFormValue form in
  let value := defaultValue in
  let progress := loadProgress ls form in
  let '(currentPageId, value) :=
    match progress with
    | Some progress =>
        let hasSavedPage :=
          bool_decide (is_Some
            (List.find (fun g => String.eqb (group_id g) (page progress))
               (default [] (groups form)))) in
        (if hasSavedPage then Some (page progress) else currentPageId,
         mergeProgress progress value)
    | None => (currentPageId, value)
    end in
  let errors :=
    foldl (fun prev f =>
             <[field_id f := validate (prop value (field_id f)) f (language state)]> prev)
          ∅ (fields form) in
  let hasErrors := existsb (fun key => truthy (prop errors key)) (keys errors) in
  let currentPageId := if hasErrors then firstPageId else currentPageId in
  {| htmlId := htmlId state;
     form := Some form;
     language := language state;
     currentPageId := currentPageId;
     value := value;
     defaultValue := defaultValue;
     emptyValue := emptyValue;
     inputValue := value;
     errors := errors;
     showErrors := false;
     focussed := None;
     loading := false;
     loadError := None;
     defaultPageTitle := defaultPageTitle state |}.

Definition onSetValue (state : FormState) (fieldId : string) (fieldValue : JsValue) : Next :=
  match find_field (form state) fieldId with
  | Some field =>
      let fieldErrors := validate fieldValue field (language state) in
      let state :=
        with_errors (<[fieldId := fieldErrors]> (errors state))
          (with_value (<[fieldId := fieldValue]> (value state)) state) in
      Fresh (with_showErrors (showErrors state && currentPageHasErrors state) state)
  | None => Same
  end.

Definition onSetInputValue (state : FormState) (fieldId : string) (fieldInputValue : JsValue) : Next :=
  match find_field (form state) fieldId with
  | Some field =>
      Fresh (with_inputValue (<[fieldId := fieldInputValue]> (inputValue state)) state)
  | None => Same
  end.

Definition onSetFocussed (state : FormState) (fieldId : string) (focussed' : bool) : Next :=
  if focussed' then Fresh (with_focussed (Some fieldId) state)
  else if bool_decide (focussed state = Some fieldId)
  then Fresh (with_focussed None state)
  else Same.

(** [{ canSave, state }] *)
Record SubmitResult := {
  canSave : bool;
  result_state : FormState
}.

Definition onSubmit (state : FormState) : list HistoryOp * SubmitResult :=
  let notSaveable :=
    ([], {| canSave := false; result_state := with_showErrors true state |}) in
  let isValid := negb (currentPageHasErrors state) in
  if isValid then
    let isLastPage := getIsLastPage (form state) (currentPageId state) in
    let nextPage := getNextPage (form state) (currentPageId state) in
    if truthy_str nextPage then
      (addToHistory nextPage push,
       {| canSave := false;
          result_state := with_currentPageId nextPage (with_showErrors false state) |})
    else if isLastPage then
      ([], {| canSave := true; result_state := with_showErrors false state |})
    else notSaveable
  else notSaveable.

Definition onPreviousPage (state : FormState) : list HistoryOp * Next :=
  let previousPage := getPreviousPage (form state) (currentPageId state) in
  if truthy_str previousPage then
    (addToHistory previousPage replace,
     Fresh (with_currentPageId previousPage (with_showErrors false state)))
  else ([], Same).

(** [a || b] on nullable strings *)
Definition nullable_or (a b : option string) : option string :=
  if truthy_str a then a else b.

(** [trigger] is ['popstate'] when the navigation comes from the browser's
    back and forward buttons. *)
Definition onGotoPage (state : FormState) (pageId : option string) (trigger : option string)
    : list HistoryOp * Next :=
  let popstate := bool_decide (trigger = Some "popstate") in
  let currentPageIndex := getPageIndex (form state) (currentPageId state) in
  let newPageIndex :=
    if truthy_str pageId then getPageIndex (form state) pageId else 0 in
  if 0 <=? newPageIndex then
    if currentPageIndex <? newPageIndex then
      let isValid := negb (currentPageHasErrors state) in
      if isValid then
        let nextPage := getNextPage (form state) (currentPageId state) in
        if truthy_str nextPage && bool_decide (nextPage = pageId) then
          (if negb popstate then addToHistory pageId push else [],
           Fresh (with_currentPageId pageId (with_showErrors false state)))
        else ([], Same)
      else
        (if popstate then [back] else [],
         Fresh (with_showErrors true state))
    else if newPageIndex <? currentPageIndex then
      (if negb popstate then addToHistory pageId push else [],
       Fresh (with_currentPageId
                (nullable_or pageId (getPageIdAt (form state) newPageIndex))
                (with_showErrors false state)))
    else ([], Same)
  else ([], Same).

(** ** The store actions ([createActions]) *)

(** The store holds the form state; beside it the actions share the
    closure variable [loadingPromise], the browser's [localStorage] and
    [history] (the calls made on it, oldest first).  A promise is known by
    its identity: the promise made by the [n]-th pending [setForm] is [n],
    and [issued] counts them.  The store applies an updater as soon as
    [set] is called, and a promise's callback runs after the [setForm]
    that made it has returned. *)
Record Store := {
  st : FormState;
  loadingPromise : option nat;
  localStorage : gmap string string;
  history : list HistoryOp;
  issued : nat
}.

(** [set(updates)] *)
Definition set (updates : FormState → FormState) (s : Store) : Store :=
  {| st := updates (st s); loadingPromise := loadingPromise s;
     localStorage := localStorage s; history := history s;
     issued := issued s |}.

Definition set_loadingPromise (p : option nat) (s : Store) : Store :=
  {| st := st s; loadingPromise := p; localStorage := localStorage s;
     history := history s; issued := issued s |}.

(** [setWithProgress(updates)]: the draft is saved when the updater hands
    back a new object; the updater's calls on [history] are recorded. *)
Definition setWithProgress (updates : FormState → list HistoryOp * Next) (s : Store) : Store :=
  let '(ops, n) := updates (st s) in
  {| st := next (st s) n;
     loadingPromise := loadingPromise s;
     localStorage :=
       match n with
       | Fresh nextState => saveProgress nextState (localStorage s)
       | Same => localStorage s
       end;
     history := history s ++ ops;
     issued := issued s |}.

(** What happens to the store: the calls of the actions, and the
    settlements of the promises given to [setForm]. *)
Inductive Event :=
  | setForm_ready (form : FormContentType) (now : Date)
  | setForm_pending
  | resolved (p : nat) (form : FormContentType) (now : Date)
  | rejected (p : nat) (loadError : JsValue)
  | setValue (fieldId : string) (fieldValue : JsValue)
  | setInputValue (fieldId : string) (fieldInputValue : JsValue)
  | setFocussed (fieldId : string) (focussed' : bool)
  | submit
  | previousPage
  | gotoPage (pageId : option string) (trigger : option string)
  | resetProgressInStorage.

Definition dispatch (s : Store) (e : Event) : Store :=
  match e with
  | setForm_ready form now =>
      set (fun state => onSetForm (localStorage s) now state form)
        (set_loadingPromise None s)
  | setForm_pending =>
      let p := issued s in
      let s := set (with_loading true) s in
      {| st := st s; loadingPromise := Some p;
         localStorage := localStorage s; history := history s;
         issued := S (issued s) |}
  | resolved p form now =>
      set_loadingPromise None
        (set (fun state =>
                if bool_decide (Some p = loadingPromise s)
                then onSetForm (localStorage s) now state form
                else state) s)
  | rejected p loadError =>
      set_loadingPromise None
        (set (fun state =>
                if bool_decide (Some p = loadingPromise s)
                then with_loading false (with_loadError (Some loadError) state)
                else state) s)
  | setValue fieldId fieldValue =>
      setWithProgress (fun state => ([], onSetValue state fieldId fieldValue)) s
  | setInputValue fieldId fieldInputValue =>
      set (fun state => next state (onSetInputValue state fieldId fieldInputValue)) s
  | setFocussed fieldId focussed' =>
      set (fun state => next state (onSetFocussed state fieldId focussed')) s
  | submit =>
      setWithProgress
        (fun state => let '(ops, r) := onSubmit state in (ops, Fresh (result_state r))) s
  | previousPage => setWithProgress onPreviousPage s
  | gotoPage pageId trigger =>
      setWithProgress (fun state => onGotoPage state pageId trigger) s
  | resetProgressInStorage =>
      {| st := st s; loadingPromise := loadingPromise s;
         localStorage := resetProgress (st s) (localStorage s);
         history := history s; issued := issued s |}
  end.

(** The value [submit()] returns. *)
Definition submit_canSave (s : Store) : bool :=
  canSave (onSubmit (st s)).2.

Definition run (s : Store) (es : list Event) : Store :=
  foldl dispatch s es.

(** The reducer's transitions on a loaded form, as the actions apply them
    to the state. *)
Inductive Action :=
  | SetValue (fieldId : string) (fieldValue : JsValue)
  | SetInputValue (fieldId : string) (fieldInputValue : JsValue)
  | SetFocussed (fieldId : string) (focussed' : bool)
  | Submit
  | PreviousPage
  | GotoPage (pageId : option string) (trigger : option string).

Definition reduce (state : FormState) (a : Action) : FormState :=
  match a with
  | SetValue fieldId fieldValue => next state (onSetValue state fieldId fieldValue)
  | SetInputValue fieldId v => next state (onSetInputValue state fieldId v)
  | SetFocussed fieldId b => next state (onSetFocussed state fieldId b)
  | Submit => result_state (onSubmit state).2
  | PreviousPage => next state (onPreviousPage state).2
  | GotoPage pageId trigger => next state (onGotoPage state pageId trigger).2
  end.

End Reducer.

(** ** The accessors of [createActions] *)

(** [getFormResponse()]: the committed values under the [sys] envelope.
    [form?.id] of a state without a form is [undefined]. *)
Definition getFormResponse (s : Store) : gmap string JsValue :=
  let state := st s in
  <["sys" :=
      JObj (<["contentTypeId" :=
                match form state with
                | Some f => JStr (form_id f)
                | None => JUndefined
                end]>
              (<["dataFormat" := JStr "form"]>
                 {["language" := JStr (language state)]}))]>
    (value state).

(** [getConfirmationRules()] *)
Definition getConfirmationRules (s : Store) : option (list JsValue) :=
  match form (st s) with
  | Some f => confirmationRules <$> form_properties f
  | None => None
  end.

(** ** What the specification says, in its own words *)

(** A decimal digit. *)
Definition digit (d : Z) : ascii :=
  ascii_of_nat (48 + Z.to_nat d).

(** [hh], [mm], [MM], [DD]: two digits, zero-padded. *)
Definition two_digits (n : Z) : string :=
  String (digit (n / 10)) (String (digit (n mod 10)) "").

(** [YYYY] *)
Definition four_digits (n : Z) : string :=
  String (digit (n / 1000)) (String (digit (n / 100 mod 10)) (two_digits (n mod 100))).

(** [YYYY-MM-DD] of a local date; the calendar month is one more than
    [getMonth]. *)
Definition YYYY_MM_DD (dt : Date) : string :=
  four_digits (getFullYear dt) +:+ "-" +:+ two_digits (getMonth dt + 1)
  +:+ "-" +:+ two_digits (getDate dt).

(** [hh:mm] of a local time *)
Definition hh_mm (dt : Date) : string :=
  two_digits (getHours dt) +:+ ":" +:+ two_digits (getMinutes dt).

(** The local readings of a clock: a four-digit year, a month from 0, a
    day of the month, an hour and a minute. *)
Definition local_time (dt : Date) : Prop :=
  1000 ≤ getFullYear dt ≤ 9999 ∧ 0 ≤ getMonth dt ≤ 11 ∧ 1 ≤ getDate dt ≤ 31
  ∧ 0 ≤ getHours dt ≤ 23 ∧ 0 ≤ getMinutes dt ≤ 59.

(** The option listed for the [index]-th allowed value. *)
Definition option_at (htmlId : string) (index : nat) (value label : string) : FormFieldOption :=
  {| opt_key := pretty index;
     opt_htmlId := htmlId +:+ "-option-" +:+ pretty index;
     opt_value := value;
     opt_label := label |}.

(** The options of the enumerated allowed values, in order: the labelled
    values when there are any, else the bare values, each its own label. *)
Definition enumerated (field : Field) (htmlId : string) : option (list FormFieldOption) :=
  match field_labeledValues field with
  | Some lvs =>
      Some (imap (fun i lv => option_at htmlId i (lv_value lv) (lv_label lv)) lvs)
  | None =>
      match field_values field with
      | Some vs => Some (imap (fun i v => option_at htmlId i v v) vs)
      | None => None
      end
  end.

(** The synthetic empty option of a select. *)
Definition empty_option (pleaseSelect : string) (field : Field) (htmlId : string) : FormFieldOption :=
  {| opt_key := "";
     opt_htmlId := htmlId +:+ "-option--1";
     opt_value := "";
     opt_label :=
       match field_placeholderText field with
       | Some text => if bool_decide (text = "") then pleaseSelect else text
       | None => pleaseSelect
       end |}.

(** The index [onGotoPage] resolves its target to: an absent or empty page
    id stands for the first page. *)
Definition targetIndex (state : FormState) (pageId : option string) : Z :=
  if truthy_str pageId then getPageIndex (form state) pageId else 0.

(** [Number.MAX_SAFE_INTEGER]: up to it every integer is a number of its
    own, and [`${n}`] writes all of its decimal digits. *)
Definition MAX_SAFE_INTEGER : Z := 2 ^ 53 - 1.

(** Two states that can differ only in the page shown and in whether the
    errors are shown. *)
Definition same_but_page_and_showErrors (s s' : FormState) : Prop :=
  htmlId s' = htmlId s ∧ form s' = form s ∧ language s' = language s
  ∧ value s' = value s ∧ defaultValue s' = defaultValue s
  ∧ emptyValue s' = emptyValue s ∧ inputValue s' = inputValue s
  ∧ errors s' = errors s ∧ focussed s' = focussed s
  ∧ loading s' = loading s ∧ loadError s' = loadError s
  ∧ defaultPageTitle s' = defaultPageTitle s.

(** The field ids of a form. *)
Definition field_ids (form : FormContentType) : list string :=
  field_id <$> fields form.

(** The group ids of a form. *)
Definition group_ids (form : FormContentType) : list string :=
  group_id <$> default [] (groups form).

(** The key sets of the five dictionaries of a loaded state are the field
    ids of its form. *)
Definition keys_are_field_ids (state : FormState) : Prop :=
  ∃ f, form state = Some f
    ∧ dom (value state) = list_to_set (field_ids f)
    ∧ dom (defaultValue state) = list_to_set (field_ids f)
    ∧ dom (emptyValue state) = list_to_set (field_ids f)
    ∧ dom (inputValue state) = list_to_set (field_ids f)
    ∧ dom (errors state) = (list_to_set (field_ids f) : gset string).

(** ** Sample forms and states *)

Module Sample.

(** A validator in the shape the reducer expects: no failure is [null],
    a failed [required] is a one-entry dictionary. *)
Definition validate (v : JsValue) (f : Field) (language : string) : JsValue :=
  match validations f with
  | Some vs =>
      match required vs with
      | Some _ => if truthy v then JNull else JObj {[ "required" := JStr "This field is required" ]}
      | None => JNull
      end
  | None => JNull
  end.

Definition dquote : string := String "034"%char "".

Definition print_atom (v : JsValue) : string :=
  match v with
  | JStr s => dquote +:+ s +:+ dquote
  | JNum n => pretty n
  | JBool true => "true"
  | JBool false => "false"
  | _ => "null"
  end.

Fixpoint join (sep : string) (l : list string) : string :=
  match l with
  | [] => ""
  | [x] => x
  | x :: l => x +:+ sep +:+ join sep l
  end.

(** [JSON.stringify] on dictionaries of strings, numbers, booleans and
    nulls whose strings need no escape; a property that is [undefined] is
    left out. *)
Definition JSON_stringify (v : JsValue) : string :=
  match v with
  | JObj m =>
      "{" +:+ join ","
        ((fun kv : string * JsValue => dquote +:+ kv.1 +:+ dquote +:+ ":" +:+ print_atom kv.2)
           <$> List.filter (fun kv : string * JsValue => is_defined kv.2) (map_to_list m))
      +:+ "}"
  | v => print_atom v
  end.

(** The documents the sample parser knows. *)
Definition documents : list JsValue :=
  [ JObj {[ "name" := JStr "Ada" ]};
    JObj (<[ "name" := JStr "Ada" ]> {[ "notes" := JStr "" ]});
    JObj (<[ "name" := JStr "Ada" ]> {[ "phone" := JStr "555" ]}) ].

(** [JSON.parse] on the texts of [documents]; any other text is refused. *)
Definition JSON_parse (text : string) : option JsValue :=
  List.find (fun d => String.eqb (JSON_stringify d) text) documents.

Definition isRequired : FieldValidations :=
  {| required := Some {| message := None |}; min := None; max := None;
     minLength := None; maxLength := None; minCount := None;
     maxCount := None; regex := None; allowedValue := None;
     allowedValues := None; pastDateTime := None; decimalPlaces := None |}.

Definition oneOf (av : AllowedValues) : FieldValidations :=
  {| required := None; min := None; max := None; minLength := None;
     maxLength := None; minCount := None; maxCount := None; regex := None;
     allowedValue := None;
     allowedValues := Some ({| message := None |}, av);
     pastDateTime := None; decimalPlaces := None |}.

Definition field (id : string) (t : FieldDataType) (group : string)
    (vs : option FieldValidations) : Field :=
  {| field_id := id; field_name := id; dataType := t; dataFormat := None;
     field_description := None; default_ := JUndefined; groupId := group;
     validations := vs; editor := None |}.

Definition with_default (d : JsValue) (f : Field) : Field :=
  {| field_id := field_id f; field_name := field_name f;
     dataType := dataType f; dataFormat := dataFormat f;
     field_description := field_description f; default_ := d;
     groupId := groupId f; validations := validations f;
     editor := editor f |}.

Definition with_dataFormat (df : FieldDataFormat) (f : Field) : Field :=
  {| field_id := field_id f; field_name := field_name f;
     dataType := dataType f; dataFormat := Some df;
     field_description := field_description f; default_ := default_ f;
     groupId := groupId f; validations := validations f;
     editor := editor f |}.

Definition with_editor (i : FieldEditorId) (f : Field) : Field :=
  {| field_id := field_id f; field_name := field_name f;
     dataType := dataType f; dataFormat := dataFormat f;
     field_description := field_description f; default_ := default_ f;
     groupId := groupId f; validations := validations f;
     editor := Some {| editor_id := Some i; instructions := None;
                       label := None; properties := None |} |}.

Definition group (id : string) : Group :=
  {| group_id := id; group_name := id; group_description := None |}.

Definition contentType (id : string) (fs : list Field) (gs : option (list Group)) : FormContentType :=
  {| form_id := id; form_name := id; form_description := "";
     fields := fs; groups := gs; form_properties := None;
     form_language := "en-GB"; versionNo := None |}.

(** Two pages: page [a] asks for a required name, page [b] for optional
    notes. *)
Definition contact : FormContentType :=
  contentType "contact"
    [ field "name" DT_string "a" (Some isRequired);
      field "notes" DT_string "b" None ]
    (Some [group "a"; group "b"]).

(** Three pages, nothing required. *)
Definition survey : FormContentType :=
  contentType "survey"
    [ field "q1" DT_string "p1" None;
      field "q2" DT_string "p2" None;
      field "q3" DT_string "p3" None ]
    (Some [group "p1"; group "p2"; group "p3"]).

(** One implicit page: a form without groups. *)
Definition single : FormContentType :=
  contentType "single" [ field "name" DT_string "" None ] None.

(** A dropdown of colours, the same with an empty choice of its own, a
    dropdown without allowed values, and sizes with labels as radio
    buttons. *)
Definition colour : Field :=
  with_editor EI_list_dropdown
    (field "colour" DT_string "a"
       (Some (oneOf {| values := Some ["red"; "green"]; labeledValues := None |}))).

Definition colour_or_none : Field :=
  with_editor EI_list_dropdown
    (field "colour" DT_string "a"
       (Some (oneOf {| values := Some [""; "red"]; labeledValues := None |}))).

Definition dropdown : Field :=
  with_editor EI_list_dropdown (field "choice" DT_string "a" None).

Definition size : Field :=
  field "size" DT_string "a"
    (Some (oneOf {| values := Some ["s"; "l"];
                    labeledValues :=
                      Some [ {| lv_value := "s"; lv_label := "Small" |};
                             {| lv_value := "l"; lv_label := "Large" |} ] |})).

(** The state a form instance starts from. *)
Definition initial : FormState :=
  {| htmlId := "form"; form := None; language := "en-GB";
     currentPageId := None; value := ∅; defaultValue := ∅; emptyValue := ∅;
     inputValue := ∅; errors := ∅; showErrors := false; focussed := None;
     loading := false; loadError := None; defaultPageTitle := "Form" |}.

Definition store : Store :=
  {| st := initial; loadingPromise := None; localStorage := ∅;
     history := []; issued := 0 |}.

(** 2 November 2026, 09:05 *)
Definition clock : Date :=
  {| getFullYear := 2026; getMonth := 10; getDate := 2; getHours := 9;
     getMinutes := 5 |}.

Definition onSetForm := onSetForm validate JSON_parse.
Definition onSetValue := onSetValue validate.
Definition reduce := reduce validate.
Definition dispatch := dispatch validate JSON_parse JSON_stringify.
Definition run := run validate JSON_parse JSON_stringify.

(** The contact form loaded with no draft, and with the name filled in. *)
Definition loaded : FormState := onSetForm ∅ clock initial contact.
Definition named : FormState := next loaded (onSetValue loaded "name" (JStr "Ada")).

(** The survey loaded with no draft. *)
Definition surveyed : FormState := onSetForm ∅ clock initial survey.

(** The group-less form loaded with no draft, and with the name filled in. *)
Definition single_loaded : FormState := onSetForm ∅ clock initial single.
Definition single_named : FormState :=
  next single_loaded (onSetValue single_loaded "name" (JStr "Ada")).


(** The survey on its last page. *)
Definition last : FormState := with_currentPageId (Some "p3") surveyed.

(** What the browser stores once the name is filled in and submitted. *)
Definition drafted : gmap string string :=
  localStorage
    (run store [ setForm_ready contact clock; setValue "name" (JStr "Ada"); submit ]).

(** The stores of the two-page scenario: the form is loaded, submitted
    with the name missing, the name is filled in, and the form is
    submitted twice. *)
Definition s1 : Store := dispatch store (setForm_ready contact clock).
Definition s2 : Store := dispatch s1 submit.
Definition s3 : Store := dispatch s2 (setValue "name" (JStr "x")).
Definition s4 : Store := dispatch s3 submit.
Definition s5 : Store := dispatch s4 submit.

(** The store once the contact form is loaded and the name filled in. *)
Definition filled : Store :=
  run store [ setForm_ready contact clock; setValue "name" (JStr "Ada") ].

(** A storage whose draft of the contact form is not JSON. *)
Definition broken : gmap string string :=
  <[value_key "contact" := "{oops"]> {[ page_key "contact" := "b" ]}.

(** The first field of the contact form. *)
Definition name : Field := field "name" DT_string "a" (Some isRequired).

(** A later version of the contact form: the notes are gone, a phone
    number is asked for. *)
Definition contact2 : FormContentType :=
  contentType "contact"
    [ field "name" DT_string "a" (Some isRequired);
      field "phone" DT_string "b" None ]
    (Some [group "a"; group "b"]).

End Sample.

(** * Field derivation *)

Section FieldDerivation.

(** Linear arithmetic with division and remainder by constants. *)
Ltac div_lia := zify; Z.to_euclidean_division_equations; lia.

Lemma pad_two_digits (n : Z) : 0 ≤ n ≤ 99 → pad n 2 = two_digits n.
Proof.
  intros Hn.
  assert (Hall : Forall (fun n => pad n 2 = two_digits n) (seqZ 0 100)).
  { apply (bool_decide_unpack _). vm_compute. exact I. }
  rewrite Forall_forall in Hall. apply Hall. apply elem_of_seqZ. lia.
Qed.

Lemma pretty_N_char_digit (d : Z) : 0 ≤ d < 10 → pretty_N_char (Z.to_N d) = digit d.
Proof.
  intros Hd.
  assert (Hall : Forall (fun d => pretty_N_char (Z.to_N d) = digit d) (seqZ 0 10)).
  { apply (bool_decide_unpack _). vm_compute. exact I. }
  rewrite Forall_forall in Hall. apply Hall. apply elem_of_seqZ. lia.
Qed.

(** The last four decimal digits that [pretty] writes. *)
Lemma pretty_N_go_four (x : N) (s : string) :
  (1000 ≤ x)%N →
  pretty_N_go x s
  = pretty_N_go (x / 10000)%N
      (String (pretty_N_char (x / 1000 mod 10)%N)
         (String (pretty_N_char (x / 100 mod 10)%N)
            (String (pretty_N_char (x / 10 mod 10)%N)
               (String (pretty_N_char (x mod 10)%N) s)))).
Proof.
  intros Hx.
  assert (H1 : (0 < x)%N) by lia.
  assert (H2 : (0 < x / 10)%N) by (apply N.div_str_pos; lia).
  assert (H3 : (0 < x / 10 / 10)%N).
  { rewrite N.Div0.div_div. apply N.div_str_pos; lia. }
  assert (H4 : (0 < x / 10 / 10 / 10)%N).
  { rewrite !N.Div0.div_div. apply N.div_str_pos; lia. }
  rewrite (pretty_N_go_step x) by done.
  rewrite (pretty_N_go_step (x / 10)) by done.
  rewrite (pretty_N_go_step (x / 10 / 10)) by done.
  rewrite (pretty_N_go_step (x / 10 / 10 / 10)) by done.
  by rewrite !N.Div0.div_div.
Qed.

Lemma pretty_four_digits (n : Z) : 1000 ≤ n ≤ 9999 → pretty n = four_digits n.
Proof.
  intros Hn. destruct n as [|p|p]; [lia| |lia].
  change (pretty (Z.pos p)) with (pretty_N_go (N.pos p) "").
  rewrite pretty_N_go_four by lia.
  assert (N.pos p / 10000 = 0)%N as -> by (apply N.div_small; lia).
  rewrite pretty_N_go_0. unfold four_digits, two_digits.
  rewrite <- !pretty_N_char_digit by div_lia.
  repeat f_equal; div_lia.
Qed.

Lemma toLocalIsoDate_spec (dt : Date) :
  local_time dt → toLocalIsoDate dt = YYYY_MM_DD dt +:+ "T00:00".
Proof.
  intros (Hy & Hm & Hd & _). unfold toLocalIsoDate, YYYY_MM_DD.
  rewrite pretty_four_digits by done.
  rewrite !pad_two_digits by lia. reflexivity.
Qed.

Lemma toLocalIsoDateTime_spec (dt : Date) :
  local_time dt → toLocalIsoDateTime dt = YYYY_MM_DD dt +:+ "T" +:+ hh_mm dt.
Proof.
  intros (Hy & Hm & Hd & Hh & Hmin). unfold toLocalIsoDateTime, YYYY_MM_DD, hh_mm.
  rewrite pretty_four_digits by done.
  rewrite !pad_two_digits by lia. reflexivity.
Qed.

Lemma toLocalIsoTime_spec (dt : Date) :
  local_time dt → toLocalIsoTime dt = hh_mm dt.
Proof.
  intros (_ & _ & _ & Hh & Hmin). unfold toLocalIsoTime, hh_mm.
  rewrite !pad_two_digits by lia. reflexivity.
Qed.

Lemma is_now_true (v : JsValue) : is_now v = true ↔ v = JStr "now()".
Proof.
  destruct v; simpl; try (split; [discriminate | congruence]).
  rewrite String.eqb_eq. split; congruence.
Qed.

Lemma is_now_false (v : JsValue) : v ≠ JStr "now()" → is_now v = false.
Proof.
  intros Hv. destruct (is_now v) eqn:E; [|done].
  by apply is_now_true in E.
Qed.

Lemma empty_value_not_now (t : FieldDataType) : is_now (EMPTY_FIELD_VALUES t) = false.
Proof. by destruct t. Qed.

(** C8. An explicit default other than ["now()"] is returned as it is and
    a missing default gives the field's empty value.  With the default
    ["now()"] and the clock [now] read in local time, a dateTime field
    gives [YYYY-MM-DDT00:00] when its editor type is date and
    [YYYY-MM-DDThh:mm] when it is datetime, and a string field of format
    time gives [hh:mm]; every part is the zero-padded local reading. *)
Theorem getDefaultValue_resolution (now : Date) (field : Field) :
  (is_defined (default_ field) = true → default_ field ≠ JStr "now()" →
     getDefaultValue now field = default_ field)
  ∧ (default_ field = JUndefined →
     getDefaultValue now field = getEmptyFieldValue field)
  ∧ (local_time now → default_ field = JStr "now()" →
       (dataType field = DT_dateTime → getFieldEditorType field = ET_date →
          getDefaultValue now field = JStr (YYYY_MM_DD now +:+ "T00:00"))
       ∧ (dataType field = DT_dateTime → getFieldEditorType field = ET_datetime →
          getDefaultValue now field = JStr (YYYY_MM_DD now +:+ "T" +:+ hh_mm now))
       ∧ (dataType field = DT_string → dataFormat field = Some DF_time →
          getDefaultValue now field = JStr (hh_mm now))).
Proof.
  unfold getDefaultValue. split; [|split].
  - intros Hdef Hnot. rewrite Hdef, (is_now_false _ Hnot).
    by rewrite !andb_false_r.
  - intros Hmiss. rewrite Hmiss. simpl. unfold getEmptyFieldValue.
    by rewrite empty_value_not_now, !andb_false_r.
  - intros Hclock Hnow. rewrite Hnow. simpl. split; [|split].
    + intros Ht He. rewrite Ht, He. simpl.
      unfold getNowDate. by rewrite toLocalIsoDate_spec.
    + intros Ht He. rewrite Ht, He. simpl.
      unfold getNowDateTime. by rewrite toLocalIsoDateTime_spec.
    + intros Ht Hf. rewrite Ht, Hf. simpl.
      unfold getNowTime. by rewrite toLocalIsoTime_spec.
Qed.

(** The default 5 of an integer field is 5, and the three readings of
    ["now()"] on 2 November 2026 at 09:05. *)
Lemma getDefaultValue_examples :
  getDefaultValue Sample.clock
    (Sample.with_default (JNum 5) (Sample.field "age" DT_integer "a" None)) = JNum 5
  ∧ getDefaultValue Sample.clock (Sample.field "age" DT_integer "a" None) = JNull
  ∧ getDefaultValue Sample.clock
      (Sample.with_default (JStr "now()") (Sample.field "born" DT_dateTime "a" None))
    = JStr "2026-11-02T00:00"
  ∧ getDefaultValue Sample.clock
      (Sample.with_editor EI_datetime
         (Sample.with_default (JStr "now()") (Sample.field "seen" DT_dateTime "a" None)))
    = JStr "2026-11-02T09:05"
  ∧ getDefaultValue Sample.clock
      (Sample.with_dataFormat DF_time
         (Sample.with_default (JStr "now()") (Sample.field "at" DT_string "a" None)))
    = JStr "09:05".
Proof.
  assert (Hclock : local_time Sample.clock) by (unfold local_time; simpl; lia).
  split; [|split; [|split; [|split]]].
  - by apply (getDefaultValue_resolution Sample.clock
        (Sample.with_default (JNum 5) (Sample.field "age" DT_integer "a" None))).
  - by apply (getDefaultValue_resolution Sample.clock
        (Sample.field "age" DT_integer "a" None)).
  - by apply (getDefaultValue_resolution Sample.clock
        (Sample.with_default (JStr "now()") (Sample.field "born" DT_dateTime "a" None))).
  - by apply (getDefaultValue_resolution Sample.clock
        (Sample.with_editor EI_datetime
           (Sample.with_default (JStr "now()") (Sample.field "seen" DT_dateTime "a" None)))).
  - by apply (getDefaultValue_resolution Sample.clock
        (Sample.with_dataFormat DF_time
           (Sample.with_default (JStr "now()") (Sample.field "at" DT_string "a" None)))).
Defined.

Lemma str_or_placeholder (pleaseSelect : string) (field : Field) (htmlId : string) :
  {| opt_key := "";
     opt_htmlId := htmlId +:+ "-option--1";
     opt_value := "";
     opt_label := str_or (field_placeholderText field) pleaseSelect |}
  = empty_option pleaseSelect field htmlId.
Proof.
  unfold empty_option, str_or. destruct (field_placeholderText field) as [text|]; [|done].
  destruct (String.eqb_spec text ""); by case_bool_decide.
Qed.

Lemma imap_map_pairs {A} (g : nat → LabeledValue → A) (vs : list string) :
  imap g (map (fun value => {| lv_value := value; lv_label := value |}) vs)
  = imap (fun i v => g i {| lv_value := v; lv_label := v |}) vs.
Proof.
  revert g. induction vs as [|v vs IH]; intros g; [done|].
  simpl. f_equal. apply IH.
Qed.

(** Without the select's empty option, [getOptions] lists the enumerated
    allowed values. *)
Lemma getOptions_enumerated (pleaseSelect : string) (field : Field) (htmlId : string) :
  getFieldEditorType field ≠ ET_select →
  getOptions pleaseSelect field htmlId = enumerated field htmlId.
Proof.
  intros Hsel. unfold getOptions, enumerated.
  rewrite bool_decide_eq_false_2 by done.
  destruct (field_labeledValues field) as [lvs|].
  - by rewrite map_id.
  - destruct (field_values field) as [vs|]; [|done].
    by rewrite imap_map_pairs.
Qed.

Lemma getOptions_select (pleaseSelect : string) (field : Field) (htmlId : string) :
  getFieldEditorType field = ET_select →
  getOptions pleaseSelect field htmlId =
    match enumerated field htmlId with
    | Some options =>
        match List.find (fun o => String.eqb (opt_value o) "") options with
        | Some _ => Some options
        | None => Some (empty_option pleaseSelect field htmlId :: options)
        end
    | None => Some [empty_option pleaseSelect field htmlId]
    end.
Proof.
  intros Hsel. unfold getOptions, enumerated.
  rewrite bool_decide_eq_true_2 by done.
  rewrite str_or_placeholder.
  destruct (field_labeledValues field) as [lvs|].
  - rewrite map_id. by destruct (List.find _ _).
  - destruct (field_values field) as [vs|]; [|done].
    rewrite imap_map_pairs. by destruct (List.find _ _).
Qed.

Lemma find_empty_None (options : list FormFieldOption) :
  List.find (fun o => String.eqb (opt_value o) "") options = None
  ↔ ∀ o, o ∈ options → opt_value o ≠ "".
Proof.
  split.
  - intros Hfind o Ho%list_elem_of_In Hv.
    pose proof (find_none _ _ Hfind o Ho) as Hne. simpl in Hne.
    rewrite Hv in Hne. discriminate.
  - intros Hall. destruct (List.find _ _) as [o|] eqn:E; [|done].
    apply find_some in E as [Ho%list_elem_of_In Hv].
    apply String.eqb_eq in Hv. by destruct (Hall o Ho).
Qed.

(** C10. For a field whose editor type is select, [getOptions] puts the
    synthetic empty option (value [''], the placeholder text or else the
    localised prompt as label) before the enumerated options unless one of
    them already has the value [''], and a select with no allowed values
    gets the list of that single option.  For any other field the options
    are those of the enumerated allowed values: the labelled values when
    present, else the bare values as their own labels, in order (the
    [i]-th option has key [i] and the [i]-th value and label). *)
Theorem getOptions_spec (pleaseSelect : string) (field : Field) (htmlId : string) :
  (getFieldEditorType field = ET_select →
     (∀ options, enumerated field htmlId = Some options →
        (∀ o, o ∈ options → opt_value o ≠ "") →
        getOptions pleaseSelect field htmlId
        = Some (empty_option pleaseSelect field htmlId :: options))
     ∧ (∀ options o, enumerated field htmlId = Some options →
        o ∈ options → opt_value o = "" →
        getOptions pleaseSelect field htmlId = Some options)
     ∧ (field_labeledValues field = None → field_values field = None →
        getOptions pleaseSelect field htmlId
        = Some [empty_option pleaseSelect field htmlId]))
  ∧ (getFieldEditorType field ≠ ET_select →
     (∀ lvs, field_labeledValues field = Some lvs →
        ∃ options, getOptions pleaseSelect field htmlId = Some options
          ∧ length options = length lvs
          ∧ ∀ i lv, lvs !! i = Some lv →
              options !! i = Some (option_at htmlId i (lv_value lv) (lv_label lv)))
     ∧ (∀ vs, field_labeledValues field = None → field_values field = Some vs →
        ∃ options, getOptions pleaseSelect field htmlId = Some options
          ∧ length options = length vs
          ∧ ∀ i v, vs !! i = Some v →
              options !! i = Some (option_at htmlId i v v))).
Proof.
  split.
  - intros Hsel. rewrite (getOptions_select _ _ _ Hsel). split; [|split].
    + intros options -> Hnone. apply find_empty_None in Hnone. by rewrite Hnone.
    + intros options o -> Ho Hv.
      destruct (List.find _ options) eqn:E; [done|].
      rewrite find_empty_None in E. by destruct (E o Ho).
    + intros Hl Hv. unfold enumerated. by rewrite Hl, Hv.
  - intros Hsel. rewrite (getOptions_enumerated _ _ _ Hsel). unfold enumerated.
    split.
    + intros lvs ->. eexists. split; [done|]. split; [by rewrite length_imap|].
      intros i lv Hi. by rewrite list_lookup_imap, Hi.
    + intros vs -> ->. eexists. split; [done|]. split; [by rewrite length_imap|].
      intros i v Hi. by rewrite list_lookup_imap, Hi.
Qed.

End FieldDerivation.

(** * Pagination *)

Section Pagination.

Lemma truthy_str_Some (p : option string) :
  truthy_str p = true ↔ ∃ s, p = Some s ∧ s ≠ "".
Proof.
  destruct p as [s|]; simpl.
  - destruct (String.eqb_spec s ""); split; try done.
    + intros (s' & [= <-] & Hs). done.
    + intros _. by exists s.
  - split; [done|]. by intros (s & ? & _).
Qed.

Lemma getPageIndex_bounds (form : option FormContentType) (pageId : option string) :
  -1 ≤ getPageIndex form pageId < groupCount form ∨ getPageIndex form pageId = -1.
Proof.
  unfold getPageIndex, groupCount.
  destruct form as [f|]; [|by right]. destruct pageId as [p|]; [|by right].
  destruct (groups f) as [gs|]; [|by right].
  destruct (list_find _ gs) as [[i g]|] eqn:E; [|by right].
  apply list_find_Some in E as (Hi & _ & _).
  apply lookup_lt_Some in Hi. left. lia.
Qed.

(** The page found at an index carries the id that was looked up. *)
Lemma getPageIdAt_getPageIndex (form : option FormContentType) (p : string) :
  0 ≤ getPageIndex form (Some p) →
  getPageIdAt form (getPageIndex form (Some p)) = Some p.
Proof.
  unfold getPageIndex, getPageIdAt.
  destruct form as [f|]; [|lia]. destruct (groups f) as [gs|]; [|lia].
  destruct (list_find _ gs) as [[i g]|] eqn:E; [|lia]. intros _.
  apply list_find_Some in E as (Hi & Hg & _).
  destruct (Z.ltb_spec (Z.of_nat i) 0); [lia|].
  by rewrite Nat2Z.id, Hi, <- Hg.
Qed.



End Pagination.

(** * Submit *)

Section SubmitTheory.



End SubmitTheory.

(** * Going to a page *)

Section GotoPageTheory.

Lemma backward_target (state : FormState) (pageId : option string) :
  0 ≤ targetIndex state pageId →
  nullable_or pageId (getPageIdAt (form state) (targetIndex state pageId))
  = getPageIdAt (form state) (targetIndex state pageId).
Proof.
  unfold targetIndex, nullable_or. destruct (truthy_str pageId) eqn:E; [|done].
  apply truthy_str_Some in E as (p & -> & _). intros Hp.
  by rewrite getPageIdAt_getPageIndex.
Qed.

(** C5. [onGotoPage] with a valid target index.  Forward (target index
    above the current one): with errors on the current page
    [currentPageId] stays and [showErrors] is true; without errors the
    state moves to the target, with [showErrors] false, exactly when the
    target is the next page, and any other forward target hands the state
    back; so the page changes only if the current page is free of errors
    and the target is the next page.  Backward (target index below the
    current one): [currentPageId] is the target and [showErrors] is false,
    whatever the current page's errors.  An equal or invalid target index
    hands the state back.  Nothing else of the state ever changes.
    History is pushed, or the browser sent back, as the trigger says. *)
Theorem onGotoPage_spec (state : FormState) (pageId trigger : option string) :
  let current := getPageIndex (form state) (currentPageId state) in
  let target := targetIndex state pageId in
  let popstate := bool_decide (trigger = Some "popstate") in
  let ops := (onGotoPage state pageId trigger).1 in
  let handed := (onGotoPage state pageId trigger).2 in
  let state' := next state handed in
  same_but_page_and_showErrors state state'
  ∧ (0 ≤ target → current < target →
     (currentPageHasErrors state = true →
        showErrors state' = true
        ∧ currentPageId state' = currentPageId state
        ∧ handed ≠ Same
        ∧ ops = if popstate then [back] else [])
     ∧ (currentPageHasErrors state = false →
        ∀ p, pageId = Some p → p ≠ "" →
          getNextPage (form state) (currentPageId state) = Some p →
          showErrors state' = false
          ∧ currentPageId state' = Some p
          ∧ handed ≠ Same
          ∧ ops = if popstate then [] else [pushState p])
     ∧ (currentPageHasErrors state = false →
        getNextPage (form state) (currentPageId state) ≠ pageId →
        handed = Same ∧ state' = state ∧ ops = [])
     ∧ (currentPageId state' ≠ currentPageId state →
        currentPageHasErrors state = false
        ∧ getNextPage (form state) (currentPageId state) = pageId))
  ∧ (0 ≤ target → target < current →
     showErrors state' = false
     ∧ currentPageId state' = getPageIdAt (form state) target
     ∧ handed ≠ Same
     ∧ ops = if popstate then [] else addToHistory pageId push)
  ∧ (target = current ∨ target < 0 →
     handed = Same ∧ state' = state ∧ ops = []).
Proof.
  intros current target popstate ops handed state'.
  subst ops handed state'.
  unfold onGotoPage. fold (targetIndex state pageId).
  fold current target popstate.
  split; [|split; [|split]].
  - repeat (match goal with |- context [if ?c then _ else _] => destruct c end;
            simpl; try by repeat split).
  - intros Hvalid Hfwd.
    destruct (Z.leb_spec 0 target); [|lia].
    destruct (Z.ltb_spec current target); [|lia].
    split; [|split; [|split]].
    + intros ->. simpl. by destruct popstate.
    + intros -> p -> Hp Hnext. simpl. rewrite Hnext. simpl.
      destruct (String.eqb_spec p ""); [done|]. simpl.
      rewrite bool_decide_eq_true_2 by done. by destruct popstate.
    + intros -> Hnext. simpl.
      rewrite (bool_decide_eq_false_2 _ Hnext). by rewrite andb_false_r.
    + destruct (currentPageHasErrors state); simpl; [done|].
      destruct (truthy_str (getNextPage _ _)); simpl; [|done].
      case_bool_decide as Hnext; simpl; [|done]. done.
  - intros Hvalid Hback.
    destruct (Z.leb_spec 0 target); [|lia].
    destruct (Z.ltb_spec current target); [lia|].
    destruct (Z.ltb_spec target current); [|lia].
    subst target. simpl. rewrite backward_target by done. by destruct popstate.
  - intros Hsame.
    destruct (Z.leb_spec 0 target); [|done].
    destruct (Z.ltb_spec current target); [lia|].
    destruct (Z.ltb_spec target current); [lia|done].
Qed.

End GotoPageTheory.

(** * Dictionaries built by folds *)

Section Folds.

Lemma elem_of_keys (o : gmap string JsValue) (k : string) :
  k ∈ keys o ↔ is_Some (o !! k).
Proof.
  unfold keys. rewrite list_elem_of_fmap. split.
  - intros ([k' v] & -> & Hkv%elem_of_map_to_list). by exists v.
  - intros [v Hv]. exists (k, v). split; [done|]. by apply elem_of_map_to_list.
Qed.

(** A fold that overwrites chosen keys. *)
Lemma lookup_foldl_overwrite (c : string → bool) (g : string → JsValue)
    (l : list string) (m : gmap string JsValue) (k : string) :
  foldl (fun prev key => if c key then <[key := g key]> prev else prev) m l !! k
  = if decide (k ∈ l ∧ c k = true) then Some (g k) else m !! k.
Proof.
  revert m. induction l as [|x l IH]; intros m.
  - cbn [foldl]. case_decide as H; [|done].
    destruct H as [H _]. by apply elem_of_nil in H.
  - cbn [foldl]. rewrite IH.
    destruct (decide (k ∈ l ∧ c k = true)) as [[Hl Hc]|Hn].
    + rewrite decide_True; [done|]. split; [by right|done].
    + destruct (decide (k = x)) as [->|Hne].
      * destruct (c x) eqn:Hc.
        -- rewrite lookup_insert_eq. rewrite decide_True; [done|].
           split; [by left|done].
        -- rewrite decide_False; [done|]. intros [_ ?]. congruence.
      * assert ((if c x then <[x:=g x]> m else m) !! k = m !! k) as ->.
        { destruct (c x); [by rewrite lookup_insert_ne|done]. }
        rewrite decide_False; [done|].
        intros [[->|Hl]%elem_of_cons Hc]; [done|]. by apply Hn.
Qed.

(** A fold that writes one entry per field: the last field of an id wins. *)
Lemma dom_foldl_fields (g : Field → JsValue) (l : list Field) (m : gmap string JsValue) :
  dom (foldl (fun prev f => <[field_id f := g f]> prev) m l)
  = dom m ∪ list_to_set (field_id <$> l).
Proof.
  revert m. induction l as [|f l IH]; intros m; simpl.
  - set_solver.
  - rewrite IH, dom_insert_L. set_solver.
Qed.

Lemma lookup_foldl_fields_other (g : Field → JsValue) (l : list Field)
    (m : gmap string JsValue) (k : string) :
  k ∉ field_id <$> l →
  foldl (fun prev f => <[field_id f := g f]> prev) m l !! k = m !! k.
Proof.
  revert m. induction l as [|y l IH]; intros m Hk; [done|].
  rewrite fmap_cons in Hk. apply not_elem_of_cons in Hk as [Hne Hk].
  cbn [foldl]. rewrite IH by done. by rewrite lookup_insert_ne.
Qed.

Lemma lookup_foldl_fields (g : Field → JsValue) (l : list Field)
    (m : gmap string JsValue) (f : Field) :
  NoDup (field_id <$> l) → f ∈ l →
  foldl (fun prev f => <[field_id f := g f]> prev) m l !! field_id f = Some (g f).
Proof.
  revert m. induction l as [|x l IH]; intros m Hnd Hf.
  - by apply elem_of_nil in Hf.
  - rewrite fmap_cons in Hnd. apply NoDup_cons in Hnd as [Hx Hnd].
    apply elem_of_cons in Hf as [->|Hf]; [|by apply IH].
    cbn [foldl]. rewrite lookup_foldl_fields_other by done.
    by rewrite lookup_insert_eq.
Qed.

Lemma foldl_fields_values (P : JsValue → Prop) (g : Field → JsValue)
    (l : list Field) (m : gmap string JsValue) (k : string) (d : JsValue) :
  (∀ f, P (g f)) → (∀ d, m !! k = Some d → P d) →
  foldl (fun prev f => <[field_id f := g f]> prev) m l !! k = Some d → P d.
Proof.
  intros Hg. revert m. induction l as [|x l IH]; intros m Hm; cbn [foldl].
  - apply Hm.
  - apply IH. intros d'. destruct (decide (field_id x = k)) as [<-|Hne].
    + rewrite lookup_insert_eq. intros [= <-]. apply Hg.
    + rewrite lookup_insert_ne by done. apply Hm.
Qed.

Lemma getDefaultValue_defined (now : Date) (field : Field) :
  is_defined (getDefaultValue now field) = true.
Proof.
  unfold getDefaultValue.
  repeat (match goal with |- context [if ?c then _ else _] => destruct c eqn:? end;
          try done).
  unfold getEmptyFieldValue. by destruct (dataType field).
Qed.

Lemma dom_reduceFields (form : FormContentType) (fn : Field → JsValue) :
  dom (reduceFields form fn) = list_to_set (field_ids form).
Proof. unfold reduceFields. rewrite dom_foldl_fields. set_solver. Qed.

(** Each key of the default values keeps its default unless the draft has
    a value for it. *)
Lemma mergeProgress_lookup (progress : Progress) (value : gmap string JsValue) (k : string) :
  mergeProgress progress value !! k
  = match value !! k with
    | Some d =>
        if is_defined (get (pvalue progress) k) && is_defined d
        then Some (get (pvalue progress) k)
        else Some d
    | None => None
    end.
Proof.
  unfold mergeProgress.
  rewrite (lookup_foldl_overwrite
    (fun key => is_defined (get (pvalue progress) key) && is_defined (prop value key))
    (fun key => get (pvalue progress) key)).
  unfold prop. destruct (value !! k) as [d|] eqn:Hk; simpl.
  - destruct (is_defined (get (pvalue progress) k) && is_defined d) eqn:Hc.
    + rewrite decide_True; [done|]. split; [|done].
      apply elem_of_keys. by rewrite Hk.
    + rewrite decide_False; [done|]. intros [_ ?]. congruence.
  - rewrite decide_False; [done|]. intros [Hin _].
    apply elem_of_keys in Hin as [? Hin]. congruence.
Qed.

Lemma dom_mergeProgress (progress : Progress) (value : gmap string JsValue) :
  dom (mergeProgress progress value) = dom value.
Proof.
  apply set_eq. intros k. rewrite !elem_of_dom, mergeProgress_lookup.
  destruct (value !! k) as [d|]; [|done].
  destruct (_ && _); split; by eauto.
Qed.

End Folds.

(** * The setters *)

Section Setters.

Variable validate : JsValue → Field → string → JsValue.

Lemma find_field_None (form : option FormContentType) (fieldId : string) :
  find_field form fieldId = None ↔ fieldId ∉ from_option field_ids [] form.
Proof.
  unfold find_field, field_ids. destruct form as [f|]; simpl.
  - split.
    + intros Hfind (x & -> & Hx%list_elem_of_In)%list_elem_of_fmap.
      pose proof (find_none _ _ Hfind x Hx) as Hne. simpl in Hne.
      by rewrite String.eqb_refl in Hne.
    + intros Hnot. destruct (List.find _ _) as [x|] eqn:E; [|done].
      apply find_some in E as [Hx%list_elem_of_In Hid%String.eqb_eq].
      destruct Hnot. apply list_elem_of_fmap. by exists x.
  - split; [|done]. intros _ H. by apply elem_of_nil in H.
Qed.

Lemma find_field_Some (form : option FormContentType) (fieldId : string) (field : Field) :
  find_field form fieldId = Some field →
  ∃ f, form = Some f ∧ field ∈ fields f ∧ field_id field = fieldId.
Proof.
  unfold find_field. destruct form as [f|]; [|done]. intros E.
  apply find_some in E as [Hx%list_elem_of_In Hid%String.eqb_eq]. by exists f.
Qed.

Lemma with_inputValue_id (state : FormState) :
  with_inputValue (inputValue state) state = state.
Proof. by destruct state. Qed.

(** C9. [onSetInputValue] leaves the committed values, the errors and the
    current page as they are; the new state is the old one with another
    [inputValue], which differs at most in the entry of the given field.
    It does not call the validator. *)
Theorem onSetInputValue_frame (state : FormState) (fieldId : string) (fieldInputValue : JsValue) :
  let state' := next state (onSetInputValue state fieldId fieldInputValue) in
  value state' = value state
  ∧ errors state' = errors state
  ∧ currentPageId state' = currentPageId state
  ∧ state' = with_inputValue (inputValue state') state
  ∧ ∀ k, k ≠ fieldId → inputValue state' !! k = inputValue state !! k.
Proof.
  unfold onSetInputValue. destruct (find_field (form state) fieldId); simpl.
  - repeat split; try done. intros k Hk. by rewrite lookup_insert_ne.
  - by rewrite with_inputValue_id.
Qed.

(** C6 (as the code has it). For a field id that is not one of the loaded
    form's fields, the value setter and the input-value setter hand back
    the state they were given.  The focus setter raises nothing either but
    does not look the id up: asked to focus, it records the id as the
    focussed field; asked to blur, it clears the focus only when that id is
    the focussed one. *)
Theorem unknown_field_setters (state : FormState) (fieldId : string) :
  fieldId ∉ from_option field_ids [] (form state) →
  (∀ fieldValue, onSetValue validate state fieldId fieldValue = Same)
  ∧ (∀ fieldInputValue, onSetInputValue state fieldId fieldInputValue = Same)
  ∧ onSetFocussed state fieldId true = Fresh (with_focussed (Some fieldId) state)
  ∧ onSetFocussed state fieldId false
    = if bool_decide (focussed state = Some fieldId)
      then Fresh (with_focussed None state) else Same.
Proof.
  intros Hunknown%find_field_None. unfold onSetValue, onSetInputValue.
  rewrite Hunknown. done.
Qed.

(** Each transition keeps the form and the key sets of the dictionaries. *)
Lemma reduce_keeps_keys (state : FormState) (a : Action) :
  keys_are_field_ids state → keys_are_field_ids (reduce validate state a).
Proof.
  intros (f & Hform & Hv & Hd & He & Hi & Herr).
  assert (Hknown : ∀ fieldId field, find_field (form state) fieldId = Some field →
            fieldId ∈ (list_to_set (field_ids f) : gset string)).
  { intros fieldId field (f' & Hf' & Hin & <-)%find_field_Some.
    rewrite Hform in Hf'. injection Hf' as <-.
    apply elem_of_list_to_set, list_elem_of_fmap. by exists field. }
  destruct a as [fieldId v|fieldId v|fieldId b| | |pageId trigger]; simpl.
  - unfold onSetValue. destruct (find_field _ _) as [field|] eqn:E; simpl.
    + exists f. simpl. rewrite !dom_insert_L, Hv, Herr.
      specialize (Hknown _ _ E). repeat split; try done; set_solver.
    + by exists f.
  - unfold onSetInputValue. destruct (find_field _ _) as [field|] eqn:E; simpl.
    + exists f. simpl. rewrite !dom_insert_L, Hi.
      specialize (Hknown _ _ E). repeat split; try done; set_solver.
    + by exists f.
  - unfold onSetFocussed. destruct b; [by exists f|].
    case_bool_decide; by exists f.
  - unfold onSubmit. destruct (negb _); [|by exists f].
    destruct (truthy_str _); [by exists f|]. destruct (getIsLastPage _ _); by exists f.
  - unfold onPreviousPage. destruct (truthy_str _); by exists f.
  - unfold onGotoPage.
    repeat (match goal with |- context [if ?c then _ else _] => destruct c end;
            simpl; try by exists f).
Qed.

End Setters.

(** * Loading a form *)

Section Loading.

Variable validate : JsValue → Field → string → JsValue.
Variable JSON_parse : string → option JsValue.
Variable JSON_stringify : JsValue → string.

Lemma str_or_truthy (p : string) : p ≠ "" → str_or (Some p) "" = p.
Proof. intros Hp. unfold str_or. by destruct (String.eqb_spec p ""). Qed.

Lemma truthy_str_true (s : string) : s ≠ "" → truthy_str (Some s) = true.
Proof. intros Hs. simpl. by destruct (String.eqb_spec s ""). Qed.

Lemma page_key_ne_value_key (id : string) : page_key id ≠ value_key id.
Proof.
  unfold page_key, value_key. intros H.
  apply (inj (String.app _)) in H. revert H.
  induction id as [|c id IH]; simpl; [done|]. intros [= H]. by apply IH.
Qed.

(** What [loadProgress] finds after [saveProgress]. *)
Lemma loadProgress_saveProgress (saved : FormState) (f reloaded : FormContentType)
    (ls : gmap string string) (p : string) (draft : JsValue) :
  form saved = Some f → form_id f = form_id reloaded → form_id reloaded ≠ "" →
  currentPageId saved = Some p → p ≠ "" →
  JSON_stringify (JObj (value saved)) ≠ "" →
  JSON_parse (JSON_stringify (JObj (value saved))) = Some draft →
  loadProgress JSON_parse (saveProgress JSON_stringify saved ls) reloaded
  = Some {| page := p; pvalue := draft |}.
Proof.
  intros Hf Hid Hne Hp Hpne Hjson Hparse.
  unfold loadProgress, saveProgress. rewrite Hf, Hid, Hp.
  destruct (String.eqb_spec (form_id reloaded) ""); [done|]. simpl negb. cbv iota.
  rewrite lookup_insert_eq.
  rewrite lookup_insert_ne by (apply not_eq_sym, page_key_ne_value_key).
  rewrite lookup_insert_eq, (str_or_truthy p Hpne).
  rewrite !truthy_str_true by done. simpl. by rewrite Hparse.
Qed.

(** Without a page id the draft that was saved is not read back. *)
Lemma loadProgress_no_page (saved : FormState) (f reloaded : FormContentType)
    (ls : gmap string string) :
  form saved = Some f → form_id f = form_id reloaded → form_id reloaded ≠ "" →
  truthy_str (currentPageId saved) = false →
  loadProgress JSON_parse (saveProgress JSON_stringify saved ls) reloaded = None.
Proof.
  intros Hf Hid He Hp. unfold loadProgress, saveProgress. rewrite Hf, Hid.
  destruct (String.eqb_spec (form_id reloaded) ""); [done|]. simpl negb. cbv iota.
  rewrite lookup_insert_ne by (apply not_eq_sym, page_key_ne_value_key).
  rewrite lookup_insert_eq.
  assert (truthy_str (Some (str_or (currentPageId saved) "")) = false) as ->; [|done].
  unfold str_or. destruct (currentPageId saved) as [p|]; [|done].
  simpl in Hp. by destruct (String.eqb_spec p "").
Qed.

Lemma hasSavedPage_group_ids (form : FormContentType) (p : string) :
  bool_decide (is_Some
    (List.find (fun g => String.eqb (group_id g) p) (default [] (groups form))))
  = bool_decide (p ∈ group_ids form).
Proof.
  apply bool_decide_ext. unfold group_ids. split.
  - intros [g Hg]. apply find_some in Hg as [Hin%list_elem_of_In Hid%String.eqb_eq].
    apply list_elem_of_fmap. by exists g.
  - intros (g & -> & Hin%list_elem_of_In)%list_elem_of_fmap.
    destruct (List.find _ _) as [g'|] eqn:E; [by eexists|].
    pose proof (find_none _ _ E g Hin) as Hne. simpl in Hne.
    by rewrite String.eqb_refl in Hne.
Qed.

(** With unique field ids, the error dictionary has a truthy entry exactly
    when some field fails on its value. *)
Lemma hasErrors_any_field (l : list Field) (g : Field → JsValue) :
  NoDup (field_id <$> l) →
  let errors := foldl (fun prev f => <[field_id f := g f]> prev) ∅ l in
  existsb (fun key => truthy (prop errors key)) (keys errors)
  = existsb (fun f => truthy (g f)) l.
Proof.
  intros Hnd errors. apply eq_true_iff_eq. rewrite !existsb_exists. split.
  - intros (key & Hkey%list_elem_of_In & Htruthy).
    apply elem_of_keys, elem_of_dom in Hkey. subst errors.
    rewrite dom_foldl_fields in Hkey.
    apply elem_of_union in Hkey as [Hkey|Hkey]; [set_solver|].
    apply elem_of_list_to_set, list_elem_of_fmap in Hkey as (f & -> & Hf).
    exists f. split; [by apply list_elem_of_In|].
    unfold prop in Htruthy. by rewrite lookup_foldl_fields in Htruthy.
  - intros (f & Hf%list_elem_of_In & Htruthy). exists (field_id f).
    assert (Hlook : errors !! field_id f = Some (g f))
      by by apply lookup_foldl_fields.
    split.
    + apply list_elem_of_In, elem_of_keys. by rewrite Hlook.
    + unfold prop. by rewrite Hlook.
Qed.

(** The value [onSetForm] commits: the defaults, under the draft if one is
    read. *)
Lemma onSetForm_value (ls : gmap string string) (now : Date)
    (state : FormState) (form : FormContentType) :
  value (onSetForm validate JSON_parse ls now state form)
  = match loadProgress JSON_parse ls form with
    | Some progress =>
        mergeProgress progress (getDefaultFormValue now form (language state))
    | None => getDefaultFormValue now form (language state)
    end.
Proof. unfold onSetForm. by destruct (loadProgress _ _ _). Qed.

Lemma onSetForm_defaultValue (ls : gmap string string) (now : Date)
    (state : FormState) (form : FormContentType) :
  defaultValue (onSetForm validate JSON_parse ls now state form)
  = getDefaultFormValue now form (language state).
Proof. unfold onSetForm. by destruct (loadProgress _ _ _). Qed.

Lemma onSetForm_form (ls : gmap string string) (now : Date)
    (state : FormState) (content : FormContentType) :
  form (onSetForm validate JSON_parse ls now state content) = Some content.
Proof. unfold onSetForm. by destruct (loadProgress _ _ _). Qed.

Lemma onSetForm_keys (ls : gmap string string) (now : Date)
    (state : FormState) (form : FormContentType) :
  keys_are_field_ids (onSetForm validate JSON_parse ls now state form).
Proof.
  exists form.
  assert (Hv : dom (value (onSetForm validate JSON_parse ls now state form))
               = list_to_set (field_ids form)).
  { rewrite onSetForm_value. destruct (loadProgress _ _ _).
    - rewrite dom_mergeProgress. apply dom_reduceFields.
    - apply dom_reduceFields. }
  revert Hv. unfold onSetForm. destruct (loadProgress _ _ _); simpl; intros Hv.
  all: repeat split; try done; try apply dom_reduceFields.
  all: rewrite dom_foldl_fields; set_solver.
Qed.

End Loading.

(** * The loaded form: key sets, page selection, drafts *)

Section LoadedForm.

Variable validate : JsValue → Field → string → JsValue.
Variable JSON_parse : string → option JsValue.
Variable JSON_stringify : JsValue → string.

(** C7. After [onSetForm], and after any sequence of the transitions
    SetValue, SetInputValue, SetFocussed, Submit, PreviousPage and GotoPage
    that follows it, [value], [defaultValue], [emptyValue], [inputValue]
    and [errors] each have exactly the loaded form's field ids as keys. *)
Theorem keys_invariant (ls : gmap string string) (now : Date)
    (state : FormState) (form : FormContentType) (actions : list Action) :
  keys_are_field_ids
    (foldl (reduce validate) (onSetForm validate JSON_parse ls now state form) actions).
Proof.
  generalize (onSetForm_keys validate JSON_parse ls now state form).
  generalize (onSetForm validate JSON_parse ls now state form).
  induction actions as [|a actions IH]; intros loaded Hloaded; [done|].
  simpl. apply IH. by apply reduce_keeps_keys.
Qed.

(** C4. The page [onSetForm] selects, for a form with unique field ids:
    the first page when some field fails validation on the merged value,
    whatever the draft; otherwise the draft's page when a draft is read
    and its page is the id of one of the form's groups, and the first page
    in every other case. *)
Theorem onSetForm_currentPageId (ls : gmap string string) (now : Date)
    (state : FormState) (form : FormContentType) :
  NoDup (field_ids form) →
  let loaded := onSetForm validate JSON_parse ls now state form in
  let firstPageId := getPageIdAt (Some form) 0 in
  let fails f := truthy (validate (prop (value loaded) (field_id f)) f (language state)) in
  currentPageId loaded
  = if existsb fails (fields form) then firstPageId
    else match loadProgress JSON_parse ls form with
         | Some progress =>
             if bool_decide (page progress ∈ group_ids form)
             then Some (page progress) else firstPageId
         | None => firstPageId
         end.
Proof.
  intros Hnd loaded firstPageId fails. subst loaded fails.
  rewrite onSetForm_value. unfold onSetForm.
  destruct (loadProgress _ _ _) as [progress|]; simpl.
  - rewrite (hasErrors_any_field (fields form)
      (fun f => validate (prop (mergeProgress progress
         (getDefaultFormValue now form (language state))) (field_id f)) f (language state)))
      by done.
    by rewrite hasSavedPage_group_ids.
  - rewrite (hasErrors_any_field (fields form)
      (fun f => validate (prop (getDefaultFormValue now form (language state))
         (field_id f)) f (language state))) by done.
    by destruct (existsb _ _).
Qed.

(** A draft saved from a state whose page id is present is read back by
    [onSetForm] of a form with the same id: every key of the default
    values that the draft defines gets the committed value back, and the
    keys are the form's field ids, so draft keys of fields that are gone
    are dropped.  [JSON.parse] of the saved text is taken to read like the
    value that was written. *)
Lemma draft_round_trip (ls : gmap string string) (now : Date)
    (state saved : FormState) (f reloaded : FormContentType) (p : string)
    (draft : gmap string JsValue) :
  form saved = Some f → form_id f = form_id reloaded → form_id reloaded ≠ "" →
  currentPageId saved = Some p → p ≠ "" →
  JSON_stringify (JObj (value saved)) ≠ "" →
  JSON_parse (JSON_stringify (JObj (value saved))) = Some (JObj draft) →
  (∀ k, prop draft k = prop (value saved) k) →
  let loaded :=
    onSetForm validate JSON_parse (saveProgress JSON_stringify saved ls) now state reloaded in
  (∀ k, k ∈ dom (defaultValue loaded) → is_defined (prop (value saved) k) = true →
     value loaded !! k = Some (prop (value saved) k))
  ∧ dom (value loaded) = list_to_set (field_ids reloaded)
  ∧ dom (defaultValue loaded) = (list_to_set (field_ids reloaded) : gset string).
Proof.
  intros Hf Hid Hne Hp Hpne Hjson Hparse Hread loaded.
  pose proof (onSetForm_keys validate JSON_parse (saveProgress JSON_stringify saved ls)
                now state reloaded) as (f' & Hform & Hdv & Hdd & _).
  pose proof (onSetForm_form validate JSON_parse (saveProgress JSON_stringify saved ls)
                now state reloaded) as Hform'.
  rewrite Hform' in Hform.
  injection Hform as <-.
  fold loaded in Hdv, Hdd.
  assert (Hvalue : ∀ k, value loaded !! k
            = match defaultValue loaded !! k with
              | Some d =>
                  if is_defined (prop (value saved) k) && is_defined d
                  then Some (prop (value saved) k) else Some d
              | None => None
              end).
  { intros k. subst loaded. rewrite onSetForm_value, onSetForm_defaultValue.
    rewrite (loadProgress_saveProgress JSON_parse JSON_stringify saved f reloaded ls p
               (JObj draft)) by done.
    rewrite mergeProgress_lookup. simpl. by rewrite Hread. }
  split; [|done].
  intros k [d Hd]%elem_of_dom Hdefined. rewrite Hvalue, Hd, Hdefined.
  assert (is_defined d = true) as ->; [|done].
  subst loaded. rewrite onSetForm_defaultValue in Hd.
  apply (foldl_fields_values (fun d => is_defined d = true)
           (fun field => getDefaultValue now field) (fields reloaded) ∅ k d);
    [apply getDefaultValue_defined| |done].
  intros d'. by rewrite lookup_empty.
Qed.

(** C3 (where the code departs from it). A state without a page id (a
    form without groups) is saved with the empty string as its page: the
    committed values are written to the storage, but [loadProgress] asks
    for a non-empty page and never reads them back, so [onSetForm] of the
    same form commits the default values, not the saved ones. *)
Theorem draft_without_page_is_not_read (ls : gmap string string) (now : Date)
    (state saved : FormState) (f reloaded : FormContentType) :
  form saved = Some f → form_id f = form_id reloaded → form_id reloaded ≠ "" →
  truthy_str (currentPageId saved) = false →
  let stored := saveProgress JSON_stringify saved ls in
  stored !! value_key (form_id reloaded) = Some (JSON_stringify (JObj (value saved)))
  ∧ stored !! page_key (form_id reloaded) = Some ""
  ∧ loadProgress JSON_parse stored reloaded = None
  ∧ value (onSetForm validate JSON_parse stored now state reloaded)
    = getDefaultFormValue now reloaded (language state).
Proof.
  intros Hf Hid Hne Hpage stored.
  assert (Hload : loadProgress JSON_parse stored reloaded = None)
    by by apply (loadProgress_no_page JSON_parse JSON_stringify saved f).
  split; [|split; [|split; [exact Hload|]]].
  - subst stored. unfold saveProgress. rewrite Hf, Hid.
    destruct (String.eqb_spec (form_id reloaded) ""); [done|]. simpl.
    by rewrite lookup_insert_eq.
  - subst stored. unfold saveProgress. rewrite Hf, Hid.
    destruct (String.eqb_spec (form_id reloaded) ""); [done|]. simpl.
    rewrite lookup_insert_ne by (apply not_eq_sym, page_key_ne_value_key).
    rewrite lookup_insert_eq. unfold str_or.
    destruct (currentPageId saved) as [p|]; [|done].
    simpl in Hpage. by destruct (String.eqb_spec p "").
  - by rewrite onSetForm_value, Hload.
Qed.

End LoadedForm.

(** * Loads that are pending *)

Section PendingLoads.

Variable validate : JsValue → Field → string → JsValue.
Variable JSON_parse : string → option JsValue.
Variable JSON_stringify : JsValue → string.

Local Abbreviation dispatch := (dispatch validate JSON_parse JSON_stringify).
Local Abbreviation run := (run validate JSON_parse JSON_stringify).

(** The settlement of a promise that is not the one last issued leaves the
    form state as it is. *)
Lemma stale_resolution_ignored (s : Store) (p : nat) (content : FormContentType) (now : Date) :
  loadingPromise s ≠ Some p →
  st (dispatch s (resolved p content now)) = st s.
Proof.
  intros Hstale. simpl. rewrite bool_decide_eq_false_2; [done|]. congruence.
Qed.

(** The settlement of the promise last issued loads its form. *)
Lemma current_resolution_applied (s : Store) (p : nat) (content : FormContentType) (now : Date) :
  loadingPromise s = Some p →
  st (dispatch s (resolved p content now))
  = onSetForm validate JSON_parse (localStorage s) now (st s) content.
Proof. intros Hcurrent. simpl. by rewrite bool_decide_eq_true_2. Qed.

(** Every settlement forgets the promise last issued, stale or not. *)
Lemma resolution_forgets_promise (s : Store) (p : nat) (content : FormContentType) (now : Date) :
  loadingPromise (dispatch s (resolved p content now)) = None.
Proof. done. Qed.

Lemma with_loading_twice (state : FormState) :
  with_loading true (with_loading true state) = with_loading true state.
Proof. done. Qed.

(** C2 (where the code departs from it). Two loads are issued; the first,
    superseded one settles first and is ignored, but its callback clears
    [loadingPromise]; when the second, most recent load settles it no
    longer matches and is ignored too: the state is left loading and the
    form of the most recent load is never applied. *)
Theorem superseded_resolution_cancels_latest (s : Store)
    (first latest : FormContentType) (now now' : Date) :
  let s' :=
    run s [ setForm_pending; setForm_pending;
            resolved (issued s) first now;
            resolved (S (issued s)) latest now' ] in
  st s' = with_loading true (st s) ∧ loadingPromise s' = None.
Proof.
  simpl. by rewrite bool_decide_eq_false_2 by (intros [= H]; lia).
Qed.

(** When the most recent load settles first it is applied, and the
    superseded one is ignored afterwards. *)
Lemma latest_resolution_first (s : Store)
    (first latest : FormContentType) (now now' : Date) :
  st (run s [ setForm_pending; setForm_pending;
              resolved (S (issued s)) latest now';
              resolved (issued s) first now ])
  = onSetForm validate JSON_parse (localStorage s) now' (with_loading true (st s)) latest.
Proof.
  simpl. by rewrite bool_decide_eq_true_2.
Qed.

End PendingLoads.

(** * The theorems on the sample forms *)

Section Samples.

Ltac by_computation := apply (bool_decide_unpack _); vm_compute; exact I.


(** The same scenario through the store: what each call finds and what
    [submit()] returns. *)
Lemma two_page_scenario :
  (currentPageId (st Sample.s1) = Some "a"
   ∧ truthy (prop (errors (st Sample.s1)) "name") = true
   ∧ showErrors (st Sample.s1) = false)
  ∧ (submit_canSave Sample.s1 = false
     ∧ showErrors (st Sample.s2) = true
     ∧ currentPageId (st Sample.s2) = Some "a")
  ∧ (truthy (prop (errors (st Sample.s3)) "name") = false
     ∧ showErrors (st Sample.s3) = false)
  ∧ (submit_canSave Sample.s3 = false
     ∧ currentPageId (st Sample.s4) = Some "b"
     ∧ history Sample.s4 = [pushState "b"])
  ∧ (submit_canSave Sample.s4 = true
     ∧ currentPageId (st Sample.s5) = Some "b").
Proof. vm_compute. repeat split. Qed.

(** On the survey: from the first page, going to the second moves there,
    going to the third changes nothing; from the last page, going to the
    first moves back; an unknown page changes nothing.  On the contact form
    with the name missing, going to the second page shows the errors. *)
Lemma onGotoPage_scenario :
  (currentPageId (next Sample.surveyed (onGotoPage Sample.surveyed (Some "p2") None).2)
   = Some "p2"
   ∧ showErrors (next Sample.surveyed (onGotoPage Sample.surveyed (Some "p2") None).2)
     = false
   ∧ (onGotoPage Sample.surveyed (Some "p2") None).1 = [pushState "p2"])
  ∧ (onGotoPage Sample.surveyed (Some "p3") None).2 = Same
  ∧ (currentPageId
       (next Sample.last (onGotoPage Sample.last (Some "p1") (Some "popstate")).2)
     = Some "p1"
     ∧ showErrors
         (next Sample.last (onGotoPage Sample.last (Some "p1") (Some "popstate")).2)
       = false
     ∧ (onGotoPage Sample.last (Some "p1") (Some "popstate")).1 = [])
  ∧ (onGotoPage Sample.surveyed (Some "p9") None).2 = Same
  ∧ (showErrors
       (next Sample.loaded (onGotoPage Sample.loaded (Some "b") (Some "popstate")).2)
     = true
     ∧ currentPageId
         (next Sample.loaded (onGotoPage Sample.loaded (Some "b") (Some "popstate")).2)
       = Some "a"
     ∧ (onGotoPage Sample.loaded (Some "b") (Some "popstate")).1 = [back]).
Proof.
  split; [|split; [|split; [|split]]].
  - destruct (onGotoPage_spec Sample.surveyed (Some "p2") None) as (_ & Hforward & _).
    destruct Hforward as (_ & Hnext & _); [by_computation ..|].
    destruct (Hnext ltac:(vm_compute; reflexivity) "p2" eq_refl ltac:(discriminate)
                ltac:(vm_compute; reflexivity)) as (Hshow & Hpage & _ & Hops).
    split; [exact Hpage|]. split; [exact Hshow|exact Hops].
  - destruct (onGotoPage_spec Sample.surveyed (Some "p3") None) as (_ & Hforward & _).
    destruct Hforward as (_ & _ & Hbeyond & _); [by_computation ..|].
    apply Hbeyond; [vm_compute; reflexivity|vm_compute; discriminate].
  - destruct (onGotoPage_spec Sample.last (Some "p1") (Some "popstate"))
      as (_ & _ & Hbackward & _).
    destruct Hbackward as (Hshow & Hpage & _ & Hops); [by_computation ..|].
    split; [rewrite Hpage; vm_compute; reflexivity|]. split; [exact Hshow|exact Hops].
  - destruct (onGotoPage_spec Sample.surveyed (Some "p9") None) as (_ & _ & _ & Hinvalid).
    apply Hinvalid. right. by_computation.
  - destruct (onGotoPage_spec Sample.loaded (Some "b") (Some "popstate"))
      as (_ & Hforward & _).
    destruct Hforward as (Herrors & _); [by_computation ..|].
    destruct (Herrors ltac:(vm_compute; reflexivity)) as (Hshow & Hpage & _ & Hops).
    split; [exact Hshow|]. split; [rewrite Hpage; vm_compute; reflexivity|exact Hops].
Defined.

(** The options of the sample fields. *)
Lemma getOptions_examples :
  getOptions "Please select" Sample.colour "f"
  = Some [ empty_option "Please select" Sample.colour "f";
           option_at "f" 0 "red" "red"; option_at "f" 1 "green" "green" ]
  ∧ getOptions "Please select" Sample.colour_or_none "f"
    = Some [ option_at "f" 0 "" ""; option_at "f" 1 "red" "red" ]
  ∧ getOptions "Please select" Sample.dropdown "f"
    = Some [ empty_option "Please select" Sample.dropdown "f" ]
  ∧ (∃ options, getOptions "Please select" Sample.size "f" = Some options
       ∧ options !! 1%nat = Some (option_at "f" 1 "l" "Large")).
Proof.
  split; [|split; [|split]].
  - destruct (getOptions_spec "Please select" Sample.colour "f") as (Hselect & _).
    destruct Hselect as (Hprepend & _); [reflexivity|].
    apply Hprepend; [reflexivity|]. intros o Ho.
    apply list_elem_of_lookup in Ho as [i Ho].
    destruct i as [|[|[|i]]]; simplify_eq/=; discriminate.
  - destruct (getOptions_spec "Please select" Sample.colour_or_none "f") as (Hselect & _).
    destruct Hselect as (_ & Hkeep & _); [reflexivity|].
    apply (Hkeep _ (option_at "f" 0 "" "")); [reflexivity|by left|reflexivity].
  - destruct (getOptions_spec "Please select" Sample.dropdown "f") as (Hselect & _).
    destruct Hselect as (_ & _ & Hnone); [reflexivity|].
    apply Hnone; reflexivity.
  - destruct (getOptions_spec "Please select" Sample.size "f") as (_ & Hother).
    destruct Hother as (Hlabelled & _); [discriminate|].
    destruct (Hlabelled _ eq_refl) as (options & Hoptions & _ & Hnth).
    exists options. split; [exact Hoptions|].
    apply (Hnth 1%nat {| lv_value := "l"; lv_label := "Large" |}). reflexivity.
Defined.

(** The setters on the loaded contact form, for a field it does not have. *)
Lemma unknown_field_example :
  ("ghost" ∉ from_option field_ids [] (form Sample.loaded))
  ∧ onSetValue Sample.validate Sample.loaded "ghost" (JStr "boo") = Same
  ∧ onSetInputValue Sample.loaded "ghost" (JStr "boo") = Same
  ∧ onSetFocussed Sample.loaded "ghost" true
    = Fresh (with_focussed (Some "ghost") Sample.loaded).
Proof.
  assert (Hunknown : "ghost" ∉ from_option field_ids [] (form Sample.loaded))
    by by_computation.
  split; [done|].
  destruct (unknown_field_setters Sample.validate Sample.loaded "ghost" Hunknown)
    as (Hvalue & Hinput & Hfocus & _).
  split; [apply Hvalue|]. split; [apply Hinput|]. apply Hfocus.
Defined.

(** C6 fails for the focus setter: focussing a field the form does not
    have changes the state. *)
Lemma focus_setter_records_unknown_field :
  ¬ (∀ (state : FormState) (fieldId : string) (focussed' : bool),
       fieldId ∉ from_option field_ids [] (form state) →
       next state (onSetFocussed state fieldId focussed') = state).
Proof.
  intros Hclaim.
  assert (Hunknown : "ghost" ∉ from_option field_ids [] (form Sample.loaded))
    by by_computation.
  specialize (Hclaim Sample.loaded "ghost" true Hunknown).
  apply (f_equal focussed) in Hclaim. vm_compute in Hclaim. discriminate.
Qed.

(** The page chosen on a reload of the contact form: the draft's page [b],
    since the saved name passes validation. *)
Lemma onSetForm_currentPageId_example :
  NoDup (field_ids Sample.contact)
  ∧ currentPageId (Sample.onSetForm Sample.drafted Sample.clock Sample.initial Sample.contact)
    = Some "b".
Proof.
  assert (Hunique : NoDup (field_ids Sample.contact)) by by_computation.
  split; [done|]. unfold Sample.onSetForm.
  rewrite (onSetForm_currentPageId Sample.validate Sample.JSON_parse Sample.drafted
             Sample.clock Sample.initial Sample.contact Hunique).
  vm_compute. reflexivity.
Defined.

(** The draft of the contact form with the name filled in, read back by a
    later version of the form: the name is restored, the new phone field
    has its default, and the notes are dropped. *)
Lemma draft_round_trip_example :
  form Sample.named = Some Sample.contact
  ∧ currentPageId Sample.named = Some "a"
  ∧ Sample.JSON_parse (Sample.JSON_stringify (JObj (value Sample.named)))
    = Some (JObj (value Sample.named))
  ∧ value Sample.named !! "name" = Some (JStr "Ada")
  ∧ (let loaded :=
       Sample.onSetForm (saveProgress Sample.JSON_stringify Sample.named ∅)
         Sample.clock Sample.initial Sample.contact2 in
     value loaded !! "name" = Some (JStr "Ada")
     ∧ value loaded !! "phone" = defaultValue loaded !! "phone"
     ∧ dom (value loaded) = list_to_set (field_ids Sample.contact2)).
Proof.
  assert (Hparse : Sample.JSON_parse (Sample.JSON_stringify (JObj (value Sample.named)))
                   = Some (JObj (value Sample.named))) by (vm_compute; reflexivity).
  assert (Htext : Sample.JSON_stringify (JObj (value Sample.named)) ≠ "")
    by by_computation.
  split; [vm_compute; reflexivity|]. split; [vm_compute; reflexivity|].
  split; [exact Hparse|]. split; [vm_compute; reflexivity|].
  destruct (draft_round_trip Sample.validate Sample.JSON_parse Sample.JSON_stringify
              ∅ Sample.clock Sample.initial Sample.named Sample.contact Sample.contact2
              "a" (value Sample.named))
    as (Hdraft & Hkeys & _);
    [vm_compute; reflexivity|reflexivity|discriminate|vm_compute; reflexivity
    |discriminate|exact Htext|exact Hparse|reflexivity|].
  unfold Sample.onSetForm. cbv zeta. split; [|split; [|exact Hkeys]].
  - rewrite (Hdraft "name"); [vm_compute; reflexivity|by_computation|vm_compute; reflexivity].
  - vm_compute. reflexivity.
Defined.

(** The group-less form with the name filled in, saved and loaded again:
    the text of the values is in the storage, no draft is found, and the
    name is back to its default. *)
Lemma draft_without_page_example :
  form Sample.single_named = Some Sample.single
  ∧ truthy_str (currentPageId Sample.single_named) = false
  ∧ value Sample.single_named !! "name" = Some (JStr "Ada")
  ∧ saveProgress Sample.JSON_stringify Sample.single_named ∅ !! value_key "single"
    = Some (Sample.JSON_stringify (JObj (value Sample.single_named)))
  ∧ value (Sample.onSetForm (saveProgress Sample.JSON_stringify Sample.single_named ∅)
             Sample.clock Sample.initial Sample.single) !! "name"
    = Some (JStr "").
Proof.
  assert (Hform : form Sample.single_named = Some Sample.single)
    by (vm_compute; reflexivity).
  assert (Hpage : truthy_str (currentPageId Sample.single_named) = false)
    by (vm_compute; reflexivity).
  split; [exact Hform|]. split; [exact Hpage|]. split; [vm_compute; reflexivity|].
  destruct (draft_without_page_is_not_read Sample.validate Sample.JSON_parse
              Sample.JSON_stringify ∅ Sample.clock Sample.initial Sample.single_named
              Sample.single Sample.single Hform eq_refl ltac:(discriminate) Hpage)
    as (Hstored & _ & _ & Hvalue).
  split; [exact Hstored|]. unfold Sample.onSetForm. rewrite Hvalue.
  vm_compute. reflexivity.
Defined.

(** The round trip fails for a form without groups: its state has no
    page id, the draft is saved under an empty page, and [onSetForm] does
    not read it back, so the committed name is replaced by the default. *)
Lemma draft_lost_without_page :
  ¬ (∀ (saved : FormState) (f : FormContentType) (k : string),
       form saved = Some f → form_id f ≠ "" →
       Sample.JSON_stringify (JObj (value saved)) ≠ "" →
       Sample.JSON_parse (Sample.JSON_stringify (JObj (value saved)))
       = Some (JObj (value saved)) →
       k ∈ dom (defaultValue
                  (Sample.onSetForm (saveProgress Sample.JSON_stringify saved ∅)
                     Sample.clock Sample.initial f)) →
       is_defined (prop (value saved) k) = true →
       value (Sample.onSetForm (saveProgress Sample.JSON_stringify saved ∅)
                Sample.clock Sample.initial f) !! k
       = Some (prop (value saved) k)).
Proof.
  intros Hclaim.
  assert (Hlost :
    value (Sample.onSetForm (saveProgress Sample.JSON_stringify Sample.single_named ∅)
             Sample.clock Sample.initial Sample.single) !! "name"
    = Some (prop (value Sample.single_named) "name")).
  { apply (Hclaim Sample.single_named Sample.single "name");
      [vm_compute; reflexivity|discriminate|by_computation
      |vm_compute; reflexivity|by_computation|vm_compute; reflexivity]. }
  vm_compute in Hlost. discriminate.
Qed.

End Samples.

(** * More on field derivation *)

Section EditorTypes.

(** X1. Where three editor types come from: a field is a select only
    through the explicit editor id [list-dropdown], a date-time editor
    only through the explicit editor id [datetime], and a multiselect only
    as a stringArray field with allowed values and neither an editor id
    nor a data format. *)
Theorem editor_type_origins (field : Field) :
  (getFieldEditorType field = ET_select ↔ field_editor_id field = Some EI_list_dropdown)
  ∧ (getFieldEditorType field = ET_datetime ↔ field_editor_id field = Some EI_datetime)
  ∧ (getFieldEditorType field = ET_multiselect
     ↔ field_editor_id field = None ∧ dataFormat field = None
       ∧ dataType field = DT_stringArray
       ∧ (is_Some (field_values field) ∨ is_Some (field_labeledValues field))).
Proof.
  unfold getFieldEditorType.
  destruct (field_editor_id field) as [[]|]; simpl; try by (repeat split; naive_solver).
  destruct (dataFormat field) as [[]|]; simpl; try by (repeat split; naive_solver).
  destruct (field_values field) as [vs|], (field_labeledValues field) as [lvs|];
    destruct (dataType field); simpl; repeat split; try naive_solver.
  all: intros _; repeat split; eauto.
Qed.

End EditorTypes.

(** * Padding and local ISO strings *)

Section Padding.

Ltac div_lia := zify; Z.to_euclidean_division_equations; lia.

Lemma string_length_app (s t : string) :
  String.length (s +:+ t) = (String.length s + String.length t)%nat.
Proof. induction s as [|c s IH]; simpl; [done|]. by rewrite IH. Qed.

Lemma string_app_assoc (s t u : string) : (s +:+ t) +:+ u = s +:+ (t +:+ u).
Proof.
  induction s as [|c s IH]; [done|].
  change (String c ((s +:+ t) +:+ u) = String c (s +:+ (t +:+ u))).
  by rewrite IH.
Qed.

Lemma substring_whole (s : string) : String.substring 0 (String.length s) s = s.
Proof. induction s as [|c s IH]; simpl; [done|]. by rewrite IH. Qed.

Lemma substring_app_r (s t : string) :
  String.substring (String.length s) (String.length t) (s +:+ t) = t.
Proof. induction s as [|c s IH]; simpl; [apply substring_whole|done]. Qed.

Lemma substring_length (n m : nat) (s : string) :
  (n + m ≤ String.length s)%nat → String.length (String.substring n m s) = m.
Proof.
  revert n m. induction s as [|c s IH]; intros n m Hle; simpl in Hle.
  - assert (n = 0%nat ∧ m = 0%nat) as [-> ->] by lia. done.
  - destruct n as [|n]; simpl.
    + destruct m as [|m]; simpl; [done|]. rewrite (IH 0%nat m); [done|lia].
    + apply IH. lia.
Qed.

Lemma repeat_string_length (n : nat) (c : string) :
  String.length (repeat_string n c) = (n * String.length c)%nat.
Proof. induction n as [|n IH]; simpl; [done|]. by rewrite string_length_app, IH. Qed.

(** [slice] with a negative start takes the end of the string. *)
Lemma slice_app_r (s t : string) :
  t ≠ "" → slice (- Z.of_nat (String.length t)) (s +:+ t) = t.
Proof.
  intros Ht. unfold slice. rewrite string_length_app.
  assert (0 < String.length t)%nat by (destruct t; [done|simpl; lia]).
  destruct (Z.ltb_spec (- Z.of_nat (String.length t)) 0); [|lia].
  replace (Z.to_nat (Z.max _ 0)) with (String.length s) by lia.
  replace (Z.to_nat (_ - _)) with (String.length t) by lia.
  apply substring_app_r.
Qed.

(** What [pretty] writes in front of a string does not depend on it. *)
Lemma pretty_N_go_app (x : N) (s : string) :
  pretty_N_go x s = pretty_N_go x "" +:+ s.
Proof.
  revert s. induction (N.lt_wf_0 x) as [x _ IH]; intros s.
  destruct (decide (0 < x)%N) as [Hx|Hx].
  - rewrite (pretty_N_go_step x s), (pretty_N_go_step x "") by done.
    rewrite IH by (by apply N.div_lt).
    rewrite (IH (x / 10)%N ltac:(by apply N.div_lt) (String _ "")).
    by rewrite string_app_assoc.
  - assert (x = 0%N) as -> by lia. by rewrite !pretty_N_go_0.
Qed.

(** X2. [pad] hands back exactly [len] characters, whatever the number,
    as long as [len] is not 0; with [len] 0 the slice starts at 0 and the
    whole decimal writing of the number comes back. *)
Theorem pad_length (n : Z) (len : nat) :
  (len ≠ 0%nat → String.length (pad n len) = len)
  ∧ pad n 0 = pretty n.
Proof.
  split.
  - intros Hlen. unfold pad, slice.
    set (text := repeat_string len "0" +:+ pretty n).
    assert (Htext : (len ≤ String.length text)%nat).
    { subst text. rewrite string_length_app, repeat_string_length. simpl. lia. }
    destruct (Z.ltb_spec (-1 * Z.of_nat len) 0); [|lia].
    rewrite substring_length; lia.
  - unfold pad, slice. change (repeat_string 0 "0" +:+ pretty n) with (pretty n).
    change (-1 * Z.of_nat 0 <? 0) with false. cbv iota.
    replace (Z.to_nat (_ - _)) with (String.length (pretty n)) by lia.
    replace (Z.to_nat (Z.min _ _)) with 0%nat by lia.
    apply substring_whole.
Qed.

(** X3. [pad] to two characters keeps the last two decimal digits of a
    safe integer that is not negative: above 99 the leading digits are cut
    off. *)
Theorem pad_keeps_last_two_digits (n : Z) :
  0 ≤ n ≤ MAX_SAFE_INTEGER → pad n 2 = pad (n mod 100) 2.
Proof.
  intros [Hn _]. destruct (decide (n < 100)) as [Hsmall|Hbig].
  { by rewrite Z.mod_small by lia. }
  rewrite (pad_two_digits (n mod 100)) by div_lia.
  destruct n as [|p|p]; [lia| |lia].
  unfold pad. change (pretty (Z.pos p)) with (pretty_N_go (N.pos p) "").
  rewrite (pretty_N_go_step (N.pos p)) by lia.
  rewrite (pretty_N_go_step (N.pos p / 10)) by (apply N.div_str_pos; lia).
  rewrite pretty_N_go_app, <- string_app_assoc.
  change (-1 * Z.of_nat 2) with
    (- Z.of_nat (String.length
       (String (pretty_N_char ((N.pos p / 10) mod 10))
          (String (pretty_N_char (N.pos p mod 10)) "")))).
  rewrite slice_app_r by done. unfold two_digits.
  rewrite <- !pretty_N_char_digit by div_lia.
  repeat f_equal; div_lia.
Qed.

End Padding.

Section LocalIsoStrings.

Ltac div_lia := zify; Z.to_euclidean_division_equations; lia.

Lemma digit_inj (a b : Z) : 0 ≤ a < 10 → 0 ≤ b < 10 → digit a = digit b → a = b.
Proof.
  intros Ha Hb Hd. unfold digit in Hd.
  apply (f_equal nat_of_ascii) in Hd.
  rewrite !nat_ascii_embedding in Hd by lia. lia.
Qed.

Lemma two_digits_inj (a b : Z) :
  0 ≤ a ≤ 99 → 0 ≤ b ≤ 99 → two_digits a = two_digits b → a = b.
Proof.
  intros Ha Hb [= H1 H0].
  apply digit_inj in H1; [|div_lia..]. apply digit_inj in H0; [|div_lia..].
  div_lia.
Qed.

Lemma four_digits_inj (a b : Z) :
  0 ≤ a ≤ 9999 → 0 ≤ b ≤ 9999 → four_digits a = four_digits b → a = b.
Proof.
  intros Ha Hb [= H3 H2 H1 H0].
  apply digit_inj in H3; [|div_lia..]. apply digit_inj in H2; [|div_lia..].
  apply digit_inj in H1; [|div_lia..]. apply digit_inj in H0; [|div_lia..].
  div_lia.
Qed.

(** X4. The local date is the local date-time at midnight: [toLocalIsoDate]
    writes what [toLocalIsoDateTime] writes for the same day at 00:00. *)
Theorem date_is_midnight (dt : Date) :
  toLocalIsoDate dt
  = toLocalIsoDateTime
      {| getFullYear := getFullYear dt; getMonth := getMonth dt;
         getDate := getDate dt; getHours := 0; getMinutes := 0 |}.
Proof.
  unfold toLocalIsoDate, toLocalIsoDateTime. simpl.
  change (pad 0 2) with "00". reflexivity.
Qed.

(** X5. [toLocalIsoDateTime] loses nothing: two clocks read in local time
    that are written alike agree in year, month, day, hour and minute. *)
Theorem toLocalIsoDateTime_inj (dt1 dt2 : Date) :
  local_time dt1 → local_time dt2 →
  toLocalIsoDateTime dt1 = toLocalIsoDateTime dt2 → dt1 = dt2.
Proof.
  intros H1 H2 Heq.
  rewrite !toLocalIsoDateTime_spec in Heq by done.
  destruct H1 as (Hy1 & Hm1 & Hd1 & Hh1 & Hn1), H2 as (Hy2 & Hm2 & Hd2 & Hh2 & Hn2).
  destruct dt1 as [y1 m1 d1 h1 n1], dt2 as [y2 m2 d2 h2 n2]. simpl in *.
  unfold YYYY_MM_DD, hh_mm in Heq. simpl in Heq.
  assert (Hparts : four_digits y1 = four_digits y2
                   ∧ two_digits (m1 + 1) = two_digits (m2 + 1)
                   ∧ two_digits d1 = two_digits d2
                   ∧ two_digits h1 = two_digits h2
                   ∧ two_digits n1 = two_digits n2).
  { unfold four_digits, two_digits in *. simpl in Heq.
    injection Heq as -> -> -> -> -> -> -> -> -> -> -> ->. done. }
  destruct Hparts as (Hy & Hm & Hd & Hh & Hn).
  apply four_digits_inj in Hy; [|lia..].
  apply two_digits_inj in Hm; [|lia..].
  apply two_digits_inj in Hd; [|lia..].
  apply two_digits_inj in Hh; [|lia..].
  apply two_digits_inj in Hn; [|lia..].
  f_equal; lia.
Qed.

End LocalIsoStrings.

(** * More on loading a form *)

Section LoadingProperties.

Variable validate : JsValue → Field → string → JsValue.
Variable JSON_parse : string → option JsValue.

Lemma reduceFields_defined (content : FormContentType) (fn : Field → JsValue)
    (k : string) (v : JsValue) :
  (∀ f, is_defined (fn f) = true) →
  reduceFields content fn !! k = Some v → is_defined v = true.
Proof.
  intros Hfn. unfold reduceFields.
  apply (foldl_fields_values (fun d => is_defined d = true) fn (fields content) ∅ k v);
    [done|]. intros d. by rewrite lookup_empty.
Qed.

Lemma getEmptyFieldValue_defined (field : Field) :
  is_defined (getEmptyFieldValue field) = true.
Proof. unfold getEmptyFieldValue. by destruct (dataType field). Qed.

(** X6. No entry of a loaded form's dictionaries of values is
    [undefined]: not a default, not an empty value, and not a committed or
    input value, whatever the draft holds. *)
Theorem loaded_values_defined (ls : gmap string string) (now : Date)
    (state : FormState) (content : FormContentType) (k : string) (v : JsValue) :
  let loaded := onSetForm validate JSON_parse ls now state content in
  value loaded !! k = Some v ∨ inputValue loaded !! k = Some v
  ∨ defaultValue loaded !! k = Some v ∨ emptyValue loaded !! k = Some v →
  is_defined v = true.
Proof.
  intros loaded.
  assert (Hdefault : ∀ d, getDefaultFormValue now content (language state) !! k = Some d →
            is_defined d = true).
  { intros d. apply reduceFields_defined. apply getDefaultValue_defined. }
  assert (Hvalue : value loaded !! k = Some v → is_defined v = true).
  { subst loaded. rewrite onSetForm_value.
    destruct (loadProgress _ _ _) as [progress|]; [|apply Hdefault].
    rewrite mergeProgress_lookup.
    destruct (getDefaultFormValue _ _ _ !! k) as [d|] eqn:Hd; [|done].
    destruct (is_defined (get (pvalue progress) k)) eqn:Hdraft; simpl.
    - rewrite (Hdefault d eq_refl). by intros [= <-].
    - intros [= <-]. by apply Hdefault. }
  intros [H|[H|[H|H]]].
  - by apply Hvalue.
  - apply Hvalue. revert H. subst loaded. unfold onSetForm.
    by destruct (loadProgress _ _ _).
  - apply Hdefault. revert H. subst loaded. by rewrite onSetForm_defaultValue.
  - revert H. subst loaded. unfold onSetForm.
    destruct (loadProgress _ _ _); simpl;
      apply reduceFields_defined, getEmptyFieldValue_defined.
Qed.

(** X7. [onSetForm] takes nothing from the state it replaces but the
    render target, the language and the default page title: two states that
    agree on these load a form, from the same storage and at the same
    clock reading, into the same state.  So loading a form over a state
    that a load of it produced gives what a first load from that storage
    at that moment gives. *)
Theorem onSetForm_forgets_previous_state (ls : gmap string string) (now : Date)
    (state state' : FormState) (content : FormContentType) :
  (htmlId state = htmlId state' → language state = language state' →
   defaultPageTitle state = defaultPageTitle state' →
   onSetForm validate JSON_parse ls now state content
   = onSetForm validate JSON_parse ls now state' content)
  ∧ ∀ (ls' : gmap string string) (now' : Date),
      onSetForm validate JSON_parse ls' now'
        (onSetForm validate JSON_parse ls now state content) content
      = onSetForm validate JSON_parse ls' now' state content.
Proof.
  assert (Hsame : ∀ ls now a b, htmlId a = htmlId b → language a = language b →
            defaultPageTitle a = defaultPageTitle b →
            onSetForm validate JSON_parse ls now a content
            = onSetForm validate JSON_parse ls now b content).
  { intros ls0 now0 a b Hh Hl Ht. unfold onSetForm. by rewrite Hh, Hl, Ht. }
  split; [apply Hsame|].
  intros ls' now'.
  apply Hsame; unfold onSetForm; by destruct (loadProgress _ _ _).
Qed.

Lemma onSetForm_loadProgress_None (ls ls' : gmap string string) (now : Date)
    (state : FormState) (content : FormContentType) :
  loadProgress JSON_parse ls content = None →
  loadProgress JSON_parse ls' content = None →
  onSetForm validate JSON_parse ls now state content
  = onSetForm validate JSON_parse ls' now state content.
Proof. intros H H'. unfold onSetForm. by rewrite H, H'. Qed.

(** X8. A draft that cannot be read is no draft: when the stored page or
    the stored value is missing or empty, or the stored value is not JSON,
    [onSetForm] gives the state it gives with an empty storage. *)
Theorem unreadable_draft_is_no_draft (ls : gmap string string) (now : Date)
    (state : FormState) (content : FormContentType) :
  truthy_str (ls !! page_key (form_id content)) = false
  ∨ truthy_str (ls !! value_key (form_id content)) = false
  ∨ (∃ text, ls !! value_key (form_id content) = Some text ∧ JSON_parse text = None) →
  onSetForm validate JSON_parse ls now state content
  = onSetForm validate JSON_parse ∅ now state content.
Proof.
  intros Hdraft. apply onSetForm_loadProgress_None; [|done].
  unfold loadProgress. destruct Hdraft as [->|[->|(text & Htext & Hparse)]].
  - done.
  - by rewrite andb_false_r.
  - rewrite Htext. destruct (truthy_str _ && truthy_str _); [|done].
    destruct (ls !! page_key _); [|done]. by rewrite Hparse.
Qed.

(** X9. For a form with unique field ids, the errors of the loaded state
    are the validator's answers on the committed values: the entry of each
    field is [validate] of that field's value in [value]. *)
Theorem onSetForm_errors (ls : gmap string string) (now : Date)
    (state : FormState) (content : FormContentType) (f : Field) :
  NoDup (field_ids content) → f ∈ fields content →
  let loaded := onSetForm validate JSON_parse ls now state content in
  errors loaded !! field_id f
  = Some (validate (prop (value loaded) (field_id f)) f (language state)).
Proof.
  intros Hnd Hf loaded. subst loaded. unfold onSetForm.
  destruct (loadProgress _ _ _) as [progress|]; simpl.
  - by rewrite (lookup_foldl_fields
      (fun f => validate (prop (mergeProgress progress
         (getDefaultFormValue now content (language state))) (field_id f)) f
         (language state))).
  - by rewrite (lookup_foldl_fields
      (fun f => validate (prop (getDefaultFormValue now content (language state))
         (field_id f)) f (language state))).
Qed.

End LoadingProperties.

(** * More on the setters and the page moves *)

Section SetterProperties.

Variable validate : JsValue → Field → string → JsValue.

(** X10. [onSetValue] on a field of the form commits the value and its
    validation under the field's id and touches no other entry of [value]
    or [errors]; it leaves [inputValue], the page, the focus and the form
    as they are, and it never switches the display of errors on. *)
Theorem onSetValue_commits (state : FormState) (fieldId : string)
    (fieldValue : JsValue) (field : Field) :
  find_field (form state) fieldId = Some field →
  let state' := next state (onSetValue validate state fieldId fieldValue) in
  value state' !! fieldId = Some fieldValue
  ∧ errors state' !! fieldId = Some (validate fieldValue field (language state))
  ∧ (∀ k, k ≠ fieldId →
       value state' !! k = value state !! k ∧ errors state' !! k = errors state !! k)
  ∧ inputValue state' = inputValue state
  ∧ currentPageId state' = currentPageId state
  ∧ focussed state' = focussed state
  ∧ form state' = form state
  ∧ (showErrors state' = true → showErrors state = true).
Proof.
  intros Hfield. unfold onSetValue. rewrite Hfield. simpl.
  rewrite !lookup_insert_eq. repeat split; try done.
  - by rewrite lookup_insert_ne.
  - by rewrite lookup_insert_ne.
  - by intros [? _]%andb_true_iff.
Qed.

(** X11. Focus and blur: a blur of the focussed field clears the focus; a
    blur that arrives for a field after another field has taken the focus
    is ignored, the state object itself is handed back.  Either way only
    [focussed] can differ. *)
Theorem stale_blur_ignored (state : FormState) (f g : string) :
  let focus s id := next s (onSetFocussed s id true) in
  focussed (next (focus state f) (onSetFocussed (focus state f) f false)) = None
  ∧ (f ≠ g → onSetFocussed (focus (focus state f) g) f false = Same)
  ∧ ∀ id b, ∃ who, next state (onSetFocussed state id b) = with_focussed who state.
Proof.
  intros focus. subst focus. simpl. split; [|split].
  - by rewrite bool_decide_eq_true_2.
  - intros Hne. rewrite bool_decide_eq_false_2; [done|]. congruence.
  - intros id b. unfold onSetFocussed. destruct b; [by eexists|].
    case_bool_decide; [by eexists|]. exists (focussed state). by destruct state.
Qed.

(** X12. [onPreviousPage] does not look at the errors: what it does to the
    history and the page it moves to are the same whatever [errors] holds.
    It never pushes a history entry: it either hands the state back and
    leaves the history alone, or replaces the current entry with the page
    it moves to, hiding the errors. *)
Theorem onPreviousPage_ignores_errors (state : FormState) (errors' : gmap string JsValue) :
  (onPreviousPage (with_errors errors' state)).1 = (onPreviousPage state).1
  ∧ currentPageId (next (with_errors errors' state) (onPreviousPage (with_errors errors' state)).2)
    = currentPageId (next state (onPreviousPage state).2)
  ∧ (onPreviousPage state = ([], Same)
     ∨ ∃ p, onPreviousPage state
            = ([replaceState p],
               Fresh (with_currentPageId (Some p) (with_showErrors false state)))).
Proof.
  unfold onPreviousPage. simpl.
  destruct (getPreviousPage (form state) (currentPageId state)) as [p|]; simpl.
  - destruct (String.eqb_spec p ""); simpl; [by repeat split; left|].
    repeat split. right. by exists p.
  - repeat split. by left.
Qed.

(** X13. A navigation that comes from the browser's back and forward
    buttons never writes to the history: [onGotoPage] with the trigger
    ['popstate'] at most sends the browser back, and with any other trigger
    it never sends the browser back. *)
Theorem popstate_never_pushes (state : FormState) (pageId trigger : option string) :
  (trigger = Some "popstate" →
     (onGotoPage state pageId trigger).1 = []
     ∨ (onGotoPage state pageId trigger).1 = [back])
  ∧ (trigger ≠ Some "popstate" → back ∉ (onGotoPage state pageId trigger).1).
Proof.
  unfold onGotoPage. split.
  - intros ->. rewrite !(bool_decide_eq_true_2 (Some "popstate" = Some "popstate")) by done.
    simpl.
    repeat (match goal with |- context [if ?c then _ else _] => destruct c end;
            simpl; auto).
  - intros Hne. rewrite !(bool_decide_eq_false_2 (trigger = Some "popstate")) by done.
    simpl.
    assert (Hpush : back ∉ addToHistory pageId push).
    { unfold addToHistory. destruct pageId; [|apply not_elem_of_nil].
      intros [=]%list_elem_of_singleton. }
    repeat (match goal with |- context [if ?c then _ else _] => destruct c end;
            simpl; try done; try apply not_elem_of_nil).
Qed.

End SetterProperties.

(** * More on the store: drafts, history and loads *)

Section StorageKeys.

Lemma string_app_inj_r (s1 s2 t : string) : s1 +:+ t = s2 +:+ t → s1 = s2.
Proof.
  revert s2. induction s1 as [|c s1 IH]; intros [|c2 s2] H; [done| | |].
  - apply (f_equal String.length) in H.
    rewrite !string_length_app in H. simpl in H. lia.
  - apply (f_equal String.length) in H.
    rewrite !string_length_app in H. simpl in H. lia.
  - change (String c (s1 +:+ t) = String c2 (s2 +:+ t)) in H.
    injection H as -> H. f_equal. by apply IH.
Qed.

Lemma suffixes_differ (a b : string) : a +:+ "-page" ≠ b +:+ "-value".
Proof.
  revert b. induction a as [|c a IH]; intros b H.
  - apply (f_equal String.length) in H. rewrite !string_length_app in H.
    simpl in H. lia.
  - destruct b as [|c' b].
    + change (String c (a +:+ "-page") = "-value") in H. injection H as _ H.
      destruct a as [|c'' a]; [discriminate|].
      apply (f_equal String.length) in H.
      rewrite !string_length_app in H. simpl in H. lia.
    + change (String c (a +:+ "-page") = String c' (b +:+ "-value")) in H.
      injection H as _ H. by apply (IH b).
Qed.

Lemma page_key_inj (a b : string) : page_key a = page_key b → a = b.
Proof.
  unfold page_key. intros H%(inj (String.app _)). by apply string_app_inj_r in H.
Qed.

Lemma value_key_inj (a b : string) : value_key a = value_key b → a = b.
Proof.
  unfold value_key. intros H%(inj (String.app _)). by apply string_app_inj_r in H.
Qed.

Lemma page_key_not_value_key (a b : string) : page_key a ≠ value_key b.
Proof.
  unfold page_key, value_key. intros H%(inj (String.app _)).
  by apply suffixes_differ in H.
Qed.

End StorageKeys.

Section StoreProperties.

Variable validate : JsValue → Field → string → JsValue.
Variable JSON_parse : string → option JsValue.
Variable JSON_stringify : JsValue → string.

Local Abbreviation dispatch := (dispatch validate JSON_parse JSON_stringify).
Local Abbreviation run := (run validate JSON_parse JSON_stringify).

Lemma store_eta (s : Store) :
  {| st := st s; loadingPromise := loadingPromise s;
     localStorage := localStorage s; history := history s;
     issued := issued s |} = s.
Proof. by destruct s. Qed.

(** The transitions keep the form. *)
Lemma reduce_keeps_form (state : FormState) (a : Action) :
  form (reduce validate state a) = form state.
Proof.
  destruct a as [fieldId v|fieldId v|fieldId b| | |pageId trigger]; simpl.
  - unfold onSetValue. by destruct (find_field _ _).
  - unfold onSetInputValue. by destruct (find_field _ _).
  - unfold onSetFocussed. destruct b; [done|]. by case_bool_decide.
  - unfold onSubmit. destruct (negb _); [|done].
    destruct (truthy_str _); [done|]. by destruct (getIsLastPage _ _).
  - unfold onPreviousPage. by destruct (truthy_str _).
  - unfold onGotoPage.
    repeat (match goal with |- context [if ?c then _ else _] => destruct c end;
            simpl; try done).
Qed.

Lemma saveProgress_other_keys (state : FormState) (ls : gmap string string) (k : string) :
  (∀ f, form state = Some f → k ≠ page_key (form_id f) ∧ k ≠ value_key (form_id f)) →
  saveProgress JSON_stringify state ls !! k = ls !! k.
Proof.
  intros Hk. unfold saveProgress. destruct (form state) as [f|]; [|done].
  destruct (Hk f eq_refl) as [Hpage Hvalue].
  destruct (negb _); [|done]. by rewrite !lookup_insert_ne.
Qed.

Lemma resetProgress_other_keys (state : FormState) (ls : gmap string string) (k : string) :
  (∀ f, form state = Some f → k ≠ page_key (form_id f) ∧ k ≠ value_key (form_id f)) →
  resetProgress state ls !! k = ls !! k.
Proof.
  intros Hk. unfold resetProgress. destruct (form state) as [f|]; [|done].
  destruct (Hk f eq_refl) as [Hpage Hvalue].
  destruct (negb _); [|done]. by rewrite !lookup_delete_ne.
Qed.

(** What [setWithProgress] stores, for an updater that is one of the
    transitions. *)
Lemma setWithProgress_other_keys (s : Store) (a : Action) (k : string)
    (updates : FormState → list HistoryOp * Next) :
  (∀ state, next state (updates state).2 = reduce validate state a) →
  (∀ f, form (st s) = Some f → k ≠ page_key (form_id f) ∧ k ≠ value_key (form_id f)) →
  localStorage (setWithProgress JSON_stringify updates s) !! k = localStorage s !! k.
Proof.
  intros Hreduce Hk. unfold setWithProgress.
  specialize (Hreduce (st s)). destruct (updates (st s)) as [ops [|nextState]]; [done|].
  simpl in *. apply saveProgress_other_keys.
  rewrite Hreduce, reduce_keeps_form. apply Hk.
Qed.

(** No call of an action and no settlement of a load touches a storage key
    other than the two of the loaded form. *)
Lemma dispatch_other_keys (s : Store) (e : Event) (k : string) :
  (∀ f, form (st s) = Some f → k ≠ page_key (form_id f) ∧ k ≠ value_key (form_id f)) →
  localStorage (dispatch s e) !! k = localStorage s !! k.
Proof.
  intros Hk. destruct e; try done.
  - by apply (setWithProgress_other_keys s (SetValue fieldId fieldValue)).
  - apply (setWithProgress_other_keys s Submit); [|done].
    intros state. simpl. by destruct (onSubmit state).
  - by apply (setWithProgress_other_keys s PreviousPage).
  - by apply (setWithProgress_other_keys s (GotoPage pageId trigger)).
  - by apply resetProgress_other_keys.
Qed.

(** X14. Drafts of different forms are kept apart: whatever is called on
    a store, the draft that [loadProgress] finds for a form whose id is
    not the loaded form's id stays the same. *)
Theorem drafts_are_kept_apart (s : Store) (e : Event) (other : FormContentType) :
  (∀ f, form (st s) = Some f → form_id f ≠ form_id other) →
  loadProgress JSON_parse (localStorage (dispatch s e)) other
  = loadProgress JSON_parse (localStorage s) other.
Proof.
  intros Hother. unfold loadProgress.
  rewrite !dispatch_other_keys; [done|..].
  - intros f Hf. specialize (Hother f Hf). split.
    + intros H. symmetry in H. by apply page_key_not_value_key in H.
    + by intros H%value_key_inj.
  - intros f Hf. specialize (Hother f Hf). split.
    + by intros H%page_key_inj.
    + apply page_key_not_value_key.
Qed.

(** X15. A call that hands the state back writes nothing: [setValue] for
    a field the form does not have and [previousPage] where there is no
    previous page leave the whole store as it is, storage and history
    included. *)
Theorem no_change_no_write (s : Store) :
  (∀ fieldId fieldValue, find_field (form (st s)) fieldId = None →
     dispatch s (setValue fieldId fieldValue) = s)
  ∧ (truthy_str (getPreviousPage (form (st s)) (currentPageId (st s))) = false →
     dispatch s previousPage = s).
Proof.
  split.
  - intros fieldId fieldValue Hunknown. simpl. unfold setWithProgress, onSetValue.
    rewrite Hunknown. simpl. rewrite app_nil_r. apply store_eta.
  - intros Hfirst. simpl. unfold setWithProgress, onPreviousPage.
    rewrite Hfirst. simpl. rewrite app_nil_r. apply store_eta.
Qed.

(** X16. [setValue] on a field of a form with an id writes the draft
    through: afterwards the storage holds the page of the state (or the
    empty string) and the JSON text of the committed values, the new one
    included. *)
Theorem setValue_writes_draft (s : Store) (f : FormContentType) (field : Field)
    (fieldId : string) (fieldValue : JsValue) :
  form (st s) = Some f → form_id f ≠ "" →
  find_field (form (st s)) fieldId = Some field →
  let s' := dispatch s (setValue fieldId fieldValue) in
  value (st s') = <[fieldId := fieldValue]> (value (st s))
  ∧ localStorage s' !! value_key (form_id f)
    = Some (JSON_stringify (JObj (value (st s'))))
  ∧ localStorage s' !! page_key (form_id f)
    = Some (str_or (currentPageId (st s')) "")
  ∧ history s' = history s.
Proof.
  intros Hf Hid Hfield. simpl. unfold setWithProgress, onSetValue.
  rewrite Hfield. simpl. unfold saveProgress. simpl. rewrite Hf.
  destruct (String.eqb_spec (form_id f) ""); [done|]. simpl.
  rewrite lookup_insert_eq.
  rewrite lookup_insert_ne by (apply not_eq_sym, page_key_not_value_key).
  rewrite lookup_insert_eq, app_nil_r. done.
Qed.

(** X17. [resetProgress] removes the draft of the loaded form: with a
    form that has an id, no draft is found for it afterwards, whatever was
    stored, and the form state is untouched. *)
Theorem reset_removes_draft (s : Store) (f : FormContentType) :
  form (st s) = Some f → form_id f ≠ "" →
  loadProgress JSON_parse (localStorage (dispatch s resetProgressInStorage)) f = None
  ∧ st (dispatch s resetProgressInStorage) = st s.
Proof.
  intros Hf Hid. split; [|done]. simpl. unfold resetProgress, loadProgress.
  rewrite Hf. destruct (String.eqb_spec (form_id f) ""); [done|]. simpl.
  rewrite lookup_delete_ne by (apply not_eq_sym, page_key_not_value_key).
  by rewrite lookup_delete_eq.
Qed.

(** X18. The response of [getFormResponse] carries every committed value
    under its field id except under the key [sys], which always holds the
    envelope of content type id, data format ['form'] and language: a
    field whose id is [sys] is not sent. *)
Theorem getFormResponse_sys (s : Store) :
  (∃ envelope, getFormResponse s !! "sys" = Some (JObj envelope)
     ∧ envelope !! "dataFormat" = Some (JStr "form")
     ∧ envelope !! "language" = Some (JStr (language (st s)))
     ∧ envelope !! "contentTypeId"
       = Some (from_option (fun f => JStr (form_id f)) JUndefined (form (st s))))
  ∧ (∀ k, k ≠ "sys" → getFormResponse s !! k = value (st s) !! k)
  ∧ dom (getFormResponse s) = {["sys"]} ∪ dom (value (st s)).
Proof.
  unfold getFormResponse. split; [|split].
  - eexists. rewrite lookup_insert_eq. split; [done|].
    rewrite lookup_insert_ne by done. rewrite lookup_insert_eq.
    rewrite !lookup_insert_ne by done. rewrite lookup_singleton_eq.
    rewrite lookup_insert_eq. by destruct (form (st s)).
  - intros k Hk. by rewrite lookup_insert_ne.
  - by rewrite dom_insert_L.
Qed.

(** X19. A form given to [setForm] as a ready value supersedes a load
    that is still pending: it is loaded at once, and when the pending
    promise resolves or rejects later, the form state stays as the ready
    form left it. *)
Theorem ready_form_supersedes_pending (s : Store) (ready late : FormContentType)
    (now now' : Date) (loadError : JsValue) :
  let loaded := run s [setForm_pending; setForm_ready ready now] in
  st loaded
  = onSetForm validate JSON_parse (localStorage s) now (with_loading true (st s)) ready
  ∧ st (dispatch loaded (resolved (issued s) late now')) = st loaded
  ∧ st (dispatch loaded (rejected (issued s) loadError)) = st loaded.
Proof. simpl. done. Qed.

(** X20. A load that fails keeps the form and the values that were there:
    after a pending [setForm] whose promise rejects, the state is the one
    before the load with the error recorded and [loading] off; and the
    error stays recorded while the next load is pending. *)
Theorem failed_load_keeps_state (s : Store) (loadError : JsValue) :
  let failed := run s [setForm_pending; rejected (issued s) loadError] in
  st failed = with_loading false (with_loadError (Some loadError) (st s))
  ∧ st (dispatch failed setForm_pending)
    = with_loading true (with_loadError (Some loadError) (st s)).
Proof. simpl. by rewrite bool_decide_eq_true_2. Qed.

End StoreProperties.

(** * The further properties on the sample forms *)

Section MoreSamples.

Ltac by_computation := apply (bool_decide_unpack _); vm_compute; exact I.

Lemma pad_length_example :
  String.length (pad 7 2) = 2%nat ∧ String.length (pad 2026 2) = 2%nat.
Proof.
  split.
  - by apply (pad_length 7 2).
  - by apply (pad_length 2026 2).
Defined.

Lemma pad_keeps_last_two_digits_example :
  0 ≤ 2026 ≤ MAX_SAFE_INTEGER ∧ pad 2026 2 = pad 26 2.
Proof.
  assert (H : 0 ≤ 2026 ≤ MAX_SAFE_INTEGER) by (unfold MAX_SAFE_INTEGER; lia).
  split; [exact H|].
  exact (pad_keeps_last_two_digits 2026 H).
Defined.

Lemma toLocalIsoDateTime_inj_example :
  local_time Sample.clock
  ∧ Sample.clock
    = {| getFullYear := 2026; getMonth := 10; getDate := 2; getHours := 9;
         getMinutes := 5 |}.
Proof.
  assert (H : local_time Sample.clock) by (unfold local_time; simpl; lia).
  split; [exact H|].
  apply (toLocalIsoDateTime_inj Sample.clock _ H H). reflexivity.
Defined.

Lemma loaded_values_defined_example :
  value Sample.loaded !! "name" = Some (JStr "") ∧ is_defined (JStr "") = true.
Proof.
  assert (H : value Sample.loaded !! "name" = Some (JStr ""))
    by (vm_compute; reflexivity).
  split; [exact H|].
  apply (loaded_values_defined Sample.validate Sample.JSON_parse ∅ Sample.clock
           Sample.initial Sample.contact "name" (JStr "")).
  left. exact H.
Defined.

Lemma onSetForm_forgets_previous_state_example :
  htmlId Sample.named = htmlId Sample.initial
  ∧ Sample.onSetForm ∅ Sample.clock Sample.named Sample.survey = Sample.surveyed.
Proof.
  split; [reflexivity|].
  apply (onSetForm_forgets_previous_state Sample.validate Sample.JSON_parse ∅
           Sample.clock Sample.named Sample.initial Sample.survey); reflexivity.
Defined.

Lemma unreadable_draft_example :
  Sample.broken !! value_key "contact" = Some "{oops"
  ∧ Sample.JSON_parse "{oops" = None
  ∧ Sample.onSetForm Sample.broken Sample.clock Sample.initial Sample.contact
    = Sample.loaded.
Proof.
  assert (Htext : Sample.broken !! value_key "contact" = Some "{oops")
    by (vm_compute; reflexivity).
  assert (Hparse : Sample.JSON_parse "{oops" = None) by (vm_compute; reflexivity).
  split; [exact Htext|]. split; [exact Hparse|].
  apply (unreadable_draft_is_no_draft Sample.validate Sample.JSON_parse Sample.broken
           Sample.clock Sample.initial Sample.contact).
  right. right. exists "{oops". split; [exact Htext|exact Hparse].
Defined.

Lemma onSetForm_errors_example :
  NoDup (field_ids Sample.contact) ∧ Sample.name ∈ fields Sample.contact
  ∧ errors Sample.loaded !! "name"
    = Some (Sample.validate (prop (value Sample.loaded) "name") Sample.name "en-GB").
Proof.
  assert (Hunique : NoDup (field_ids Sample.contact)) by by_computation.
  assert (Hname : Sample.name ∈ fields Sample.contact) by (by left).
  split; [exact Hunique|]. split; [exact Hname|].
  exact (onSetForm_errors Sample.validate Sample.JSON_parse ∅ Sample.clock
           Sample.initial Sample.contact Sample.name Hunique Hname).
Defined.

Lemma onSetValue_commits_example :
  find_field (form Sample.loaded) "name" = Some Sample.name
  ∧ value Sample.named !! "name" = Some (JStr "Ada")
  ∧ inputValue Sample.named = inputValue Sample.loaded.
Proof.
  assert (Hfield : find_field (form Sample.loaded) "name" = Some Sample.name)
    by (vm_compute; reflexivity).
  split; [exact Hfield|].
  destruct (onSetValue_commits Sample.validate Sample.loaded "name" (JStr "Ada")
              Sample.name Hfield) as (Hvalue & _ & _ & Hinput & _).
  split; [exact Hvalue|exact Hinput].
Defined.

Lemma stale_blur_example :
  onSetFocussed
    (with_focussed (Some "notes") (with_focussed (Some "name") Sample.loaded))
    "name" false
  = Same.
Proof.
  destruct (stale_blur_ignored Sample.loaded "name" "notes") as (_ & Hstale & _).
  apply Hstale. discriminate.
Defined.

Lemma popstate_example :
  (onGotoPage Sample.surveyed (Some "p2") (Some "popstate")).1 = []
  ∨ (onGotoPage Sample.surveyed (Some "p2") (Some "popstate")).1 = [back].
Proof.
  by apply (popstate_never_pushes Sample.surveyed (Some "p2") (Some "popstate")).
Defined.

Lemma drafts_are_kept_apart_example :
  (∀ f, form (st Sample.s2) = Some f → form_id f ≠ form_id Sample.survey)
  ∧ loadProgress Sample.JSON_parse
      (localStorage (Sample.dispatch Sample.s2 (setValue "name" (JStr "Ada"))))
      Sample.survey
    = loadProgress Sample.JSON_parse (localStorage Sample.s2) Sample.survey.
Proof.
  assert (Hother : ∀ f, form (st Sample.s2) = Some f → form_id f ≠ form_id Sample.survey).
  { intros f Hf. vm_compute in Hf. injection Hf as <-. discriminate. }
  split; [exact Hother|].
  exact (drafts_are_kept_apart Sample.validate Sample.JSON_parse Sample.JSON_stringify
           Sample.s2 (setValue "name" (JStr "Ada")) Sample.survey Hother).
Defined.

Lemma no_change_no_write_example :
  find_field (form (st Sample.s1)) "ghost" = None
  ∧ Sample.dispatch Sample.s1 (setValue "ghost" (JStr "boo")) = Sample.s1
  ∧ Sample.dispatch Sample.s1 previousPage = Sample.s1.
Proof.
  assert (Hunknown : find_field (form (st Sample.s1)) "ghost" = None)
    by (vm_compute; reflexivity).
  split; [exact Hunknown|].
  destruct (no_change_no_write Sample.validate Sample.JSON_parse Sample.JSON_stringify
              Sample.s1) as (Hvalue & Hprevious).
  split; [by apply Hvalue|]. apply Hprevious. vm_compute. reflexivity.
Defined.

Lemma setValue_writes_draft_example :
  form (st Sample.s2) = Some Sample.contact
  ∧ find_field (form (st Sample.s2)) "name" = Some Sample.name
  ∧ localStorage Sample.s3 !! value_key "contact"
    = Some (Sample.JSON_stringify (JObj (value (st Sample.s3)))).
Proof.
  assert (Hform : form (st Sample.s2) = Some Sample.contact) by (vm_compute; reflexivity).
  assert (Hfield : find_field (form (st Sample.s2)) "name" = Some Sample.name)
    by (vm_compute; reflexivity).
  split; [exact Hform|]. split; [exact Hfield|].
  destruct (setValue_writes_draft Sample.validate Sample.JSON_parse Sample.JSON_stringify
              Sample.s2 Sample.contact Sample.name "name" (JStr "x") Hform
              ltac:(discriminate) Hfield) as (_ & Hstored & _).
  exact Hstored.
Defined.

Lemma reset_removes_draft_example :
  form (st Sample.filled) = Some Sample.contact
  ∧ is_Some (loadProgress Sample.JSON_parse (localStorage Sample.filled) Sample.contact)
  ∧ loadProgress Sample.JSON_parse
      (localStorage (Sample.dispatch Sample.filled resetProgressInStorage)) Sample.contact
    = None.
Proof.
  assert (Hform : form (st Sample.filled) = Some Sample.contact)
    by (vm_compute; reflexivity).
  split; [exact Hform|]. split; [by_computation|].
  apply (reset_removes_draft Sample.validate Sample.JSON_parse Sample.JSON_stringify
           Sample.filled Sample.contact Hform). discriminate.
Defined.

Lemma getFormResponse_example :
  getFormResponse Sample.s3 !! "name" = Some (JStr "x")
  ∧ is_Some (getFormResponse Sample.s3 !! "sys").
Proof.
  destruct (getFormResponse_sys Sample.s3) as ((envelope & Hsys & _) & Hother & _).
  split.
  - rewrite (Hother "name"); [vm_compute; reflexivity|discriminate].
  - rewrite Hsys. by eexists.
Defined.

End MoreSamples.
